(** * Request-authorization pipeline of the platform API

    A shallow embedding of [apps/platform/trpc/trpc.ts] (the tRPC middleware
    gates and the procedures composed from them) and of the session-resolving
    event handler, followed by the properties of the specification that
    concern them.

    Conventions.
    - A middleware that ends in [return next(...)] is a function from the
      context it receives to the context it forwards; [throw new TRPCError]
      is the left summand of the result.
    - The collaborators the gates call ([useRuntimeConfig], [process.env],
      [verifyTurnstileToken], the Unkey service) are read from a [World];
      every call that leaves the gate is recorded in a list of [Effect]s, in
      program order.  The verifier and the limiter are modelled for calls
      whose promise is fulfilled; the session storage of the event handler
      may also reject.
    - JavaScript's truthiness test ([!x], [x || y], [c ? a : b]) is the class
      [Truthy].
    - The identifier type of accounts and members is a parameter of the
      development; the sample requests at the end use character strings. *)

From stdpp Require Import base strings list gmap.

Local Open Scope string_scope.
Local Open Scope list_scope.

(** ** JavaScript truthiness *)

Class Truthy (A : Type) := truthy : A → bool.
Global Hint Mode Truthy ! : typeclass_instances.

(** A string is falsy exactly when it is the empty string. *)
Global Instance string_truthy : Truthy string :=
  λ s, match s with EmptyString => false | String _ _ => true end.

(** [undefined] and [null] are falsy; a present value is tested itself. *)
Global Instance option_truthy {A} `{!Truthy A} : Truthy (option A) :=
  λ o, match o with Some a => truthy a | None => false end.

Global Instance bool_truthy : Truthy bool := λ b, b.

(** [a || b] on an optional string with a string default. *)
Definition or_else (a : option string) (b : string) : string :=
  match a with
  | Some s => if truthy s then s else b
  | None => b
  end.

(** ** tRPC errors *)

Inductive TRPC_ERROR_CODE :=
| UNAUTHORIZED
| BAD_REQUEST
| PRECONDITION_FAILED
| FORBIDDEN
| TOO_MANY_REQUESTS.

Record TRPCError := mkTRPCError { code : TRPC_ERROR_CODE; message : string }.

(** ** The rate limiter objects of [@unkey/ratelimit] *)

Record RatelimitConfig := mkRatelimitConfig {
  rl_async : bool;
  rl_limit : Z;
  rl_duration : string;
  rl_namespace : string;
  rl_rootKey : string
}.

Inductive Ratelimiter :=
| Ratelimit (c : RatelimitConfig)
| NoopRatelimit.

(** ** Process-wide configuration and external collaborators *)

Record Billing := mkBilling { enabled : bool }.

Record RuntimeConfig := mkRuntimeConfig {
  billing : option Billing;          (* [useRuntimeConfig().billing?] *)
  turnstile_secretKey : string;      (* [useRuntimeConfig().turnstile.secretKey] *)
  unkey_rootKey : string             (* [useRuntimeConfig().unkey.rootKey] *)
}.

(** What a gate can observe of its surroundings at the moment it runs. *)
Record World := mkWorld {
  useRuntimeConfig : RuntimeConfig;
  NODE_ENV : option string;                          (* [process.env.NODE_ENV] *)
  verifyTurnstileToken : string → string → bool;     (* response, secretKey *)
  unkey_service : RatelimitConfig → string → bool    (* verdict of the remote limiter *)
}.

(** The transport event, as far as the two files read it.  [requestIP] is
    what h3's [getRequestIP(event)] returns: an address, which is a
    non-empty string, or [undefined]. *)
Record H3Event := mkH3Event {
  cookies : gmap string string;
  requestIP : option string
}.

Definition getCookie (event : H3Event) (name : string) : option string :=
  cookies event !! name.

Definition getRequestIP (event : H3Event) : option string := requestIP event.

(** ** Effects and the gate monad *)

Inductive Effect :=
| MemberTested (index : nat)                       (* the [find] predicate, called on [members[index]] *)
| TurnstileVerify (response secretKey : string)    (* [verifyTurnstileToken({...})] *)
| UnkeyLimit (unkey : Ratelimiter) (identifier : string).  (* [unkey.limit(identifier)] *)

Definition Gate (A : Type) : Type := World → list Effect * (TRPCError + A).

Global Instance gate_ret : MRet Gate := λ A a _, ([], inr a).

Global Instance gate_bind : MBind Gate := λ A B k m w,
  match m w with
  | (t, inl e) => (t, inl e)
  | (t, inr a) => let '(t', r) := k a w in (t ++ t', r)
  end.

Definition throw {A} (e : TRPCError) : Gate A := λ _, ([], inl e).

(** Reading the surroundings, and recording a call that leaves the gate. *)
Definition ask : Gate World := λ w, ([], inr w).

Definition emit (e : Effect) : Gate unit := λ _, ([e], inr tt).

(** A middleware receives the (parsed) input and the context. *)
Definition Middleware (In C C' : Type) : Type := In → C → Gate C'.

(** [a.unstable_pipe(b)] *)
Definition unstable_pipe {In C C' C''}
    (a : Middleware In C C') (b : Middleware In C' C'') : Middleware In C C'' :=
  λ input ctx, ctx' ← a input ctx; b input ctx'.

(** [array.find(pred)], recording each call of the predicate; [i] is the
    index of the head of [l] in the array. *)
Fixpoint array_find_from {A} (i : nat) (pred : A → bool) (l : list A) : Gate (option A) :=
  match l with
  | [] => mret None
  | x :: l' =>
      emit (MemberTested i);;
      if pred x then mret (Some x) else array_find_from (S i) pred l'
  end.

Definition array_find {A} (pred : A → bool) (l : list A) : Gate (option A) :=
  array_find_from 0 pred l.

(** ** Gates that do not look into the context *)

Definition isEeEnabled {In C} : Middleware In C C :=
  λ _ ctx,
    w ← ask;
    if negb (truthy (enabled <$> billing (useRuntimeConfig w)))
    then throw (mkTRPCError PRECONDITION_FAILED
           "Enterprise Edition features are disabled on this server")
    else mret ctx.

(** [input: { turnstileToken?: string }] *)
Record TurnstileInput := mkTurnstileInput { turnstileToken : option string }.

(** [await verifyTurnstileToken({ response, secretKey })], for a call whose
    promise is fulfilled.  The gate catches nothing: a rejected call is not
    one of the gate's answers and is outside this model. *)
Definition call_verifyTurnstileToken (response secretKey : string) : Gate bool :=
  λ w, ([TurnstileVerify response secretKey],
        inr (verifyTurnstileToken w response secretKey)).

Definition turnstileTokenValidation {C} : Middleware TurnstileInput C C :=
  λ input ctx,
    w ← ask;
    if negb (truthy (turnstile_secretKey (useRuntimeConfig w))) then mret ctx
    else if negb (truthy (turnstileToken input)) then
      if bool_decide (NODE_ENV w = Some "development") then mret ctx
      else throw (mkTRPCError FORBIDDEN "Missing Turnstile Verification Token")
    else
      success ← call_verifyTurnstileToken
                  (default "" (turnstileToken input))
                  (turnstile_secretKey (useRuntimeConfig w));
      if negb success
      then throw (mkTRPCError BAD_REQUEST "Invalid Turnstile Verification Token")
      else mret ctx.

(** The static route table, in the order of the object literal. *)
Definition publicRateLimits : list (string * (Z * string)) :=
  [ ("checkUsernameAvailability", (100%Z, "1m"));
    ("checkPasswordStrength", (100%Z, "1m"));
    ("signUpPasskeyStart", (100%Z, "1m"));
    ("signUpPasskeyFinish", (100%Z, "1m"));
    ("generatePasskeyChallenge", (100%Z, "1m"));
    ("verifyPasskey", (100%Z, "1m"));
    ("signUpWithPassword", (100%Z, "1m"));
    ("signInWithPassword", (100%Z, "1m"));
    ("validateInvite", (100%Z, "1m")) ].

(** The [success] field of what [unkey.limit(identifier)] resolves to.
    [NoopRatelimit] answers success without consulting the service. *)
Definition limit_success (w : World) (unkey : Ratelimiter) (identifier : string) : bool :=
  match unkey with
  | Ratelimit c => unkey_service w c identifier
  | NoopRatelimit => true
  end.

(** [await unkey.limit(identifier)], for a call whose promise is fulfilled.
    The gate catches nothing: a rejected call is not one of the gate's
    answers and is outside this model. *)
Definition unkey_limit (unkey : Ratelimiter) (identifier : string) : Gate bool :=
  λ w, ([UnkeyLimit unkey identifier], inr (limit_success w unkey identifier)).

(** The limiter object [createRatelimiter] builds from the root credential
    it reads. *)
Definition new_unkey (rootKey : string) (limit : Z) (duration namespace : string)
  : Ratelimiter :=
  if truthy rootKey
  then Ratelimit (mkRatelimitConfig true limit duration namespace rootKey)
  else NoopRatelimit.

(** What a client sends as the input of a call. *)
Inductive RawValue :=
| RawString (s : string)
| RawNumber (n : Z)
| RawBool (b : bool)
| RawNull.

Inductive RawInput :=
| RawObject (fields : gmap string RawValue)
| RawNotObject.

(** [z.object({ turnstileToken: z.string() })] *)
Definition zod_turnstile (raw : RawInput) : option TurnstileInput :=
  match raw with
  | RawObject fields =>
      match fields !! "turnstileToken" with
      | Some (RawString s) => Some (mkTurnstileInput (Some s))
      | _ => None
      end
  | RawNotObject => None
  end.

(** ** Vocabulary of the properties *)

(** The gate threw a [TRPCError] with code [c]. *)
Definition aborts_with {A} (c : TRPC_ERROR_CODE) (r : list Effect * (TRPCError + A))
  : Prop :=
  ∃ e, r.2 = inl e ∧ code e = c.

(** The gate called [next] with context [a]. *)
Definition forwards {A} (r : list Effect * (TRPCError + A)) (a : A) : Prop :=
  r.2 = inr a.

(** The world [w] after the rate limiter's root credential was changed to
    [rootKey]; nothing else differs. *)
Definition with_rootKey (rootKey : string) (w : World) : World :=
  mkWorld
    (mkRuntimeConfig (billing (useRuntimeConfig w))
                     (turnstile_secretKey (useRuntimeConfig w))
                     rootKey)
    (NODE_ENV w) (verifyTurnstileToken w) (unkey_service w).

Section Pipeline.

(** Account and membership identifiers.  Their declaration is not part of
    the two files, so the gates are modelled for any identifier type with a
    truthiness test and a decidable strict equality. *)
Context {Id : Type} `{!EqDecision Id} `{!Truthy Id}.

(** *** Data carried by the request context *)

Record SessionAccount := mkSessionAccount { sa_id : Id }.
Record SessionAttributes := mkSessionAttributes { attr_account : SessionAccount }.
Record Session := mkSession {
  session_id : string;
  attributes : SessionAttributes
}.

Record AccountContext := mkAccountContext {
  account_id : Id;
  session : Session
}.

Record Member := mkMember { member_id : Id; member_accountId : Id }.

Record OrgContext := mkOrgContext { org_id : Id; members : list Member }.

(** [{ ...ctx.org, memberId: orgMembership.id }] *)
Record OrgContextWithMember := mkOrgContextWithMember {
  org_base : OrgContext;
  memberId : Id
}.

(** The request context; [O] is the type of its [org] field, which the
    organization gate changes. *)
Record Context (O : Type) := mkContext {
  account : option AccountContext;
  org : O;
  event : H3Event
}.
Global Arguments mkContext {O} _ _ _.
Global Arguments account {O} _.
Global Arguments org {O} _.
Global Arguments event {O} _.

Definition BaseContext := Context (option OrgContext).
Definition OrgMemberContext := Context OrgContextWithMember.

(** *** The gates that read the context *)

Definition isAccountAuthenticated {In O} : Middleware In (Context O) (Context O) :=
  λ _ ctx,
    if match account ctx with
       | None => true
       | Some a =>
           negb (truthy (sa_id (attr_account (attributes (session a)))))
           || negb (truthy (account_id a))
       end
    then throw (mkTRPCError UNAUTHORIZED "You are not logged in, redirecting...")
    else mret (mkContext (account ctx) (org ctx) (event ctx)).

(** [member.accountId === accountId], where [accountId] may be [undefined]. *)
Definition strict_eq_opt (x : Id) (y : option Id) : bool :=
  match y with
  | Some y' => bool_decide (x = y')
  | None => false
  end.

Definition hasOrgSlug_body {In}
  : Middleware In BaseContext OrgMemberContext :=
  λ _ ctx,
    match org ctx with
    | None =>
        throw (mkTRPCError BAD_REQUEST "Invalid organization selected, redirecting...")
    | Some o =>
        let accountId := account_id <$> account ctx in
        orgMembership ← array_find
                          (λ member, strict_eq_opt (member_accountId member) accountId)
                          (members o);
        match orgMembership with
        | Some m =>
            if truthy accountId
            then mret (mkContext (account ctx)
                                 (mkOrgContextWithMember o (member_id m))
                                 (event ctx))
            else throw (mkTRPCError UNAUTHORIZED
                   "You are not a member of this organization, redirecting...")
        | None =>
            throw (mkTRPCError UNAUTHORIZED
                   "You are not a member of this organization, redirecting...")
        end
    end.

Definition hasOrgSlug {In} : Middleware In BaseContext OrgMemberContext :=
  unstable_pipe isAccountAuthenticated hasOrgSlug_body.

(** [createRatelimiter] runs when the module is evaluated: [startup] is the
    world at that moment.  The middleware it returns runs later, in the world
    of the call. *)
Definition createRatelimiter {In O} (startup : World)
    (limit : Z) (duration namespace : string)
  : Middleware In (Context O) (Context O) :=
  let rootKey := unkey_rootKey (useRuntimeConfig startup) in
  let unkey := new_unkey rootKey limit duration namespace in
  λ _ ctx,
    let ip := getRequestIP (event ctx) in
    success ← unkey_limit unkey (or_else ip "unknown");
    if negb success
    then throw (mkTRPCError TOO_MANY_REQUESTS
           "Too many requests, please try again later")
    else mret ctx.

(** *** Procedures *)

(** A procedure builder: the input parser and the middlewares added so far,
    composed in the order of their [use]. *)
Record Procedure (In C : Type) := mkProcedure {
  parser : RawInput → option In;
  chain : Middleware In BaseContext C
}.
Global Arguments mkProcedure {In C} _ _.
Global Arguments parser {In C} _.
Global Arguments chain {In C} _.

(** [trpcContext.procedure] *)
Definition procedure : Procedure unit BaseContext :=
  mkProcedure (λ _, Some tt) (λ _ ctx, mret ctx).

(** [p.input(schema)], on a procedure that has no input yet. *)
Definition input {In C} (p : Procedure unit C) (schema : RawInput → option In)
  : Procedure In C :=
  mkProcedure schema (λ _ ctx, chain p tt ctx).

(** [p.use(m)] *)
Definition use {In C C'} (p : Procedure In C) (m : Middleware In C C')
  : Procedure In C' :=
  mkProcedure (parser p) (unstable_pipe (chain p) m).

(** Running the gates of a procedure on a request.  tRPC answers an input
    the parser refuses with a BAD_REQUEST error (its message comes from the
    parser and is not modelled), and no middleware added after the parser
    runs. *)
Definition call {In C} (p : Procedure In C) (raw : RawInput) (ctx : BaseContext)
  : Gate C :=
  match parser p raw with
  | Some i => chain p i ctx
  | None => throw (mkTRPCError BAD_REQUEST "Input validation failed")
  end.

Definition publicProcedure : Procedure unit BaseContext := procedure.

(** The procedure the route table builds for one of its entries. *)
Definition rateLimited (startup : World) (key : string) (limit : Z) (duration : string)
  : Procedure TurnstileInput BaseContext :=
  use (use (input procedure zod_turnstile) turnstileTokenValidation)
      (createRatelimiter startup limit duration ("public." +:+ key)).

Definition publicRateLimitedProcedure (startup : World)
  : gmap string (Procedure TurnstileInput BaseContext) :=
  foldl (λ acc '(key, (limit, duration)),
           <[ key := rateLimited startup key limit duration ]> acc)
        ∅ publicRateLimits.

Definition accountProcedure : Procedure unit BaseContext :=
  use procedure isAccountAuthenticated.

Definition orgProcedure : Procedure unit OrgMemberContext :=
  use procedure hasOrgSlug.

Definition eeProcedure : Procedure unit OrgMemberContext :=
  use orgProcedure isEeEnabled.

(** *** Vocabulary of the properties about the context *)

(** An identifier is empty when JavaScript's [!] holds of it. *)
Definition empty_id (x : Id) : Prop := truthy x = false.

(** The three ways in which a context fails the authentication gate. *)
Definition unauthenticated {O} (ctx : Context O) : Prop :=
  account ctx = None
  ∨ (∃ a, account ctx = Some a ∧ empty_id (sa_id (attr_account (attributes (session a)))))
  ∨ (∃ a, account ctx = Some a ∧ empty_id (account_id a)).

(** [ctx] carries the account [a], whose identifier is present at both places. *)
Definition authenticated {O} (ctx : Context O) (a : AccountContext) : Prop :=
  account ctx = Some a
  ∧ truthy (sa_id (attr_account (attributes (session a)))) = true
  ∧ truthy (account_id a) = true.

(** The context the organization gate forwards when [m] is the matched
    membership record of organization [o]. *)
Definition with_member (ctx : BaseContext) (o : OrgContext) (m : Member)
  : OrgMemberContext :=
  mkContext (account ctx) (mkOrgContextWithMember o (member_id m)) (event ctx).

End Pipeline.

Global Arguments SessionAccount : clear implicits.
Global Arguments SessionAttributes : clear implicits.
Global Arguments Session : clear implicits.
Global Arguments AccountContext : clear implicits.
Global Arguments Member : clear implicits.
Global Arguments OrgContext : clear implicits.
Global Arguments OrgContextWithMember : clear implicits.
Global Arguments Context : clear implicits.
Global Arguments BaseContext : clear implicits.
Global Arguments OrgMemberContext : clear implicits.
Global Arguments Procedure : clear implicits.

(** ** The session-resolving event handler *)

(** How an awaited promise settles. *)
Inductive Settled (A : Type) :=
| Fulfilled (a : A)
| Rejected.
Global Arguments Fulfilled {A} _.
Global Arguments Rejected {A}.

(** The session cookie is absent when the handler's test [!sessionCookie]
    holds of it. *)
Definition cookie_absent (event : H3Event) : Prop :=
  truthy (getCookie event "unsession") = false.

Section Resolver.

Context {Id : Type}.

(** The stored session record and the identity built from it. *)
Record SessionUser := mkSessionUser { su_id : Id }.
Record DatabaseSessionAttributes := mkDatabaseSessionAttributes { attr_user : SessionUser }.
Record DatabaseSession := mkDatabaseSession {
  ds_id : string;
  ds_attributes : DatabaseSessionAttributes
}.

Record UserContext := mkUserContext {
  uc_id : Id;
  uc_session : DatabaseSession
}.

(** [event.context]: its [user] field is unset ([None]), [null]
    ([Some None]) or an identity. *)
Record H3EventContext := mkH3EventContext { user : option (option UserContext) }.

(** One run of the handler: the keys it passed to [getItem], in order,
    whether its promise was fulfilled or rejected, and the context it leaves
    behind. *)
Record HandlerRun := mkHandlerRun {
  lookups : list string;
  settled : Settled unit;
  context_after : H3EventContext
}.

(** The handler, on the request [event] and its mutable [context].
    [sessionStorage k] is what [await sessionStorage.getItem(k)] settles to
    on the storage [useStorage('sessions')]: the storage decides which record
    answers a key, and its promise may be rejected.  The handler catches
    nothing, so a rejected lookup rejects the handler before it assigns
    [event.context.user]. *)
Definition defineEventHandler
    (sessionStorage : string → Settled (option DatabaseSession))
    (event : H3Event) (context : H3EventContext)
  : HandlerRun :=
  let sessionCookie := getCookie event "unsession" in
  if negb (truthy sessionCookie)
  then mkHandlerRun [] (Fulfilled tt) (mkH3EventContext (Some None))
  else
    let key := default "" sessionCookie in
    match sessionStorage key with
    | Rejected => mkHandlerRun [key] Rejected context
    | Fulfilled sessionObject =>
        match sessionObject with
        | None => mkHandlerRun [key] (Fulfilled tt) (mkH3EventContext (Some None))
        | Some so =>
            let userContext :=
              mkUserContext (su_id (attr_user (ds_attributes so))) so in
            mkHandlerRun [key] (Fulfilled tt) (mkH3EventContext (Some (Some userContext)))
        end
    end.

(** The identity resolved for a request whose context has no [user] yet. *)
Definition resolved_identity
    (sessionStorage : string → Settled (option DatabaseSession)) (event : H3Event)
  : option (option UserContext) :=
  user (context_after (defineEventHandler sessionStorage event (mkH3EventContext None))).

End Resolver.

Global Arguments SessionUser : clear implicits.
Global Arguments DatabaseSessionAttributes : clear implicits.
Global Arguments DatabaseSession : clear implicits.
Global Arguments UserContext : clear implicits.
Global Arguments H3EventContext : clear implicits.
Global Arguments HandlerRun : clear implicits.

(** ** The claims the code does not satisfy as worded

    Each is stated here the way the specification words it; the properties
    section refutes it at a concrete request and proves what the code does
    instead. *)

(** Bot-verification gate: "no token supplied" read as an absent field,
    "a token is supplied" as a present one. *)
Definition bot_verification_as_worded {C} (w : World) (i : TurnstileInput) (ctx : C)
  : Prop :=
  let r := turnstileTokenValidation i ctx w in
  let secretKey := turnstile_secretKey (useRuntimeConfig w) in
  (secretKey = "" → r = ([], inr ctx))
  ∧ (secretKey ≠ "" → turnstileToken i = None →
       r.1 = [] ∧
       if bool_decide (NODE_ENV w = Some "development")
       then forwards r ctx else aborts_with FORBIDDEN r)
  ∧ (secretKey ≠ "" → ∀ token, turnstileToken i = Some token →
       r.1 = [TurnstileVerify token secretKey] ∧
       if verifyTurnstileToken w token secretKey
       then forwards r ctx else aborts_with BAD_REQUEST r).

(** Rate limiter gate: the root credential is "read at the time of each gated
    call": the gate built at startup answers a call as the gate built from
    the configuration of the moment of the call would. *)
Definition rootKey_read_per_call {Id O} (startup w : World)
    (limit : Z) (duration namespace : string) (ctx : Context Id O) : Prop :=
  createRatelimiter startup limit duration namespace tt ctx w
  = createRatelimiter w limit duration namespace tt ctx w.

(** ** Sample requests, with character strings as identifiers *)

Definition alice : AccountContext string :=
  mkAccountContext "acc_1"
    (mkSession "sess_1" (mkSessionAttributes (mkSessionAccount "acc_1"))).

Definition acme : OrgContext string :=
  mkOrgContext "org_1"
    [ mkMember "mem_7" "acc_9"; mkMember "mem_8" "acc_1"; mkMember "mem_9" "acc_1" ].

Definition strangers : OrgContext string :=
  mkOrgContext "org_2" [ mkMember "mem_1" "acc_5"; mkMember "mem_2" "acc_6" ].

Definition a_request : H3Event := mkH3Event ∅ (Some "203.0.113.7").

Definition ctx_of (a : option (AccountContext string)) (o : option (OrgContext string))
  : BaseContext string :=
  mkContext a o a_request.

Definition config (secretKey rootKey : string) : RuntimeConfig :=
  mkRuntimeConfig (Some (mkBilling true)) secretKey rootKey.

(** A production server: every verification fails and the limiter refuses. *)
Definition production (secretKey rootKey : string) : World :=
  mkWorld (config secretKey rootKey) (Some "production") (λ _ _, false) (λ _ _, false).

Definition stored_session : DatabaseSession string :=
  mkDatabaseSession "sess_1" (mkDatabaseSessionAttributes (mkSessionUser "acc_1")).

(** A session storage that answers the key "abc" with [stored_session], fails
    on the key "down" and holds nothing else. *)
Definition a_session_storage (key : string) : Settled (option (DatabaseSession string)) :=
  if bool_decide (key = "abc") then Fulfilled (Some stored_session)
  else if bool_decide (key = "down") then Rejected
  else Fulfilled None.

(** ** Vocabulary of the properties of whole procedures *)

(** The only codes a call may throw are those of [codes]. *)
Definition throws_only {A} (codes : list TRPC_ERROR_CODE)
    (r : list Effect * (TRPCError + A)) : Prop :=
  ∀ e, r.2 = inl e → code e ∈ codes.

(** The world [w] after the [billing] entry of the runtime configuration was
    changed to [b]; nothing else differs. *)
Definition with_billing (b : option Billing) (w : World) : World :=
  mkWorld
    (mkRuntimeConfig b
                     (turnstile_secretKey (useRuntimeConfig w))
                     (unkey_rootKey (useRuntimeConfig w)))
    (NODE_ENV w) (verifyTurnstileToken w) (unkey_service w).

(** The outcome of a gate that forwards its context untouched or throws:
    [None] stands for the call of [next]. *)
Definition outcome {C} (ctx : C) (o : option TRPCError) : TRPCError + C :=
  match o with
  | Some e => inl e
  | None => inr ctx
  end.

(** ** Properties *)

Section PipelineProperties.

Context {Id : Type} `{!EqDecision Id} `{!Truthy Id}.

Lemma bind_throw {A B} (m : Gate A) (k : A → Gate B) w t e :
  m w = (t, inl e) → (m ≫= k) w = (t, inl e).
Proof. intros Hm. unfold mbind, gate_bind. by rewrite Hm. Qed.

Lemma bind_next {A B} (m : Gate A) (k : A → Gate B) w t a :
  m w = (t, inr a) → (m ≫= k) w = (t ++ (k a w).1, (k a w).2).
Proof. intros Hm. unfold mbind, gate_bind. rewrite Hm. by destruct (k a w). Qed.

Lemma isAccountAuthenticated_authenticated {In O} (i : In) (ctx : Context Id O) a w :
  authenticated ctx a → isAccountAuthenticated i ctx w = ([], inr ctx).
Proof.
  intros (Ha & Hs & Ht). unfold isAccountAuthenticated.
  rewrite Ha, Hs, Ht. simpl. rewrite <- Ha. by destruct ctx.
Qed.

Lemma not_unauthenticated {O} (ctx : Context Id O) :
  ¬ unauthenticated ctx → ∃ a, authenticated ctx a.
Proof.
  intros Hn. unfold unauthenticated, authenticated, empty_id in *.
  destruct (account ctx) as [a|] eqn:Ha; [|tauto].
  exists a. split; [done|].
  destruct (truthy (sa_id _)) eqn:Hs, (truthy (account_id a)) eqn:Ht; try done.
  all: exfalso; apply Hn; eauto 6.
Qed.

Lemma isAccountAuthenticated_unauthenticated {In O} (i : In) (ctx : Context Id O) w :
  unauthenticated ctx →
  isAccountAuthenticated i ctx w
  = ([], inl (mkTRPCError UNAUTHORIZED "You are not logged in, redirecting...")).
Proof.
  unfold unauthenticated, empty_id, isAccountAuthenticated.
  intros [Hn | [(a & Ha & He) | (a & Ha & He)]].
  - by rewrite Hn.
  - by rewrite Ha, He.
  - rewrite Ha, He. by rewrite orb_true_r.
Qed.

(** C1. The authentication gate throws UNAUTHORIZED exactly when the account
    is null, or the account id embedded in the session is empty, or the
    top-level account id is empty; otherwise it forwards the context, whose
    account is not null. *)
Theorem isAccountAuthenticated_gate {In O} (i : In) (ctx : Context Id O) (w : World) :
  (aborts_with UNAUTHORIZED (isAccountAuthenticated i ctx w) ↔ unauthenticated ctx)
  ∧ (unauthenticated ctx →
       isAccountAuthenticated i ctx w
       = ([], inl (mkTRPCError UNAUTHORIZED "You are not logged in, redirecting...")))
  ∧ (¬ unauthenticated ctx →
       forwards (isAccountAuthenticated i ctx w) ctx ∧ is_Some (account ctx)).
Proof.
  pose proof (isAccountAuthenticated_unauthenticated i ctx w) as Hthrow.
  assert (Hnext : ¬ unauthenticated ctx →
    forwards (isAccountAuthenticated i ctx w) ctx ∧ is_Some (account ctx)).
  { intros Hn. destruct (not_unauthenticated ctx Hn) as [a Ha].
    unfold forwards. rewrite (isAccountAuthenticated_authenticated i ctx a w Ha).
    split; [done|]. destruct Ha as [-> _]. by eexists. }
  split; [|by split].
  split.
  - intros (e & He & _).
    destruct (account ctx) as [a|] eqn:Ha; [|by left].
    unfold isAccountAuthenticated in He. rewrite Ha in He.
    destruct (truthy (sa_id _)) eqn:Hs; [|right; left; by exists a].
    destruct (truthy (account_id a)) eqn:Ht; [|right; right; by exists a].
    by simpl in He.
  - intros Hu. rewrite (Hthrow Hu). by eexists.
Qed.

(** [find] without a match tests every element, in order. *)
Lemma array_find_from_none {A} (pred : A → bool) (l : list A) (i : nat) (w : World) :
  (∀ x, x ∈ l → pred x = false) →
  array_find_from i pred l w = (MemberTested <$> seq i (length l), inr None).
Proof.
  revert i. induction l as [|x l IH]; intros i Hall; [done|].
  simpl. unfold mbind, gate_bind, emit.
  rewrite (Hall x) by left.
  rewrite IH by (intros y Hy; apply Hall; by right).
  done.
Qed.

(** [find] stops at the first element the predicate accepts. *)
Lemma array_find_from_first {A} (pred : A → bool) (l1 : list A) (x : A) (l2 : list A)
    (i : nat) (w : World) :
  (∀ y, y ∈ l1 → pred y = false) → pred x = true →
  array_find_from i pred (l1 ++ x :: l2) w
  = (MemberTested <$> seq i (S (length l1)), inr (Some x)).
Proof.
  revert i. induction l1 as [|y l1 IH]; intros i Hall Hx; simpl.
  - unfold mbind, gate_bind, emit. by rewrite Hx.
  - unfold mbind, gate_bind, emit.
    rewrite (Hall y) by left.
    rewrite IH by (try done; intros z Hz; apply Hall; by right).
    done.
Qed.

(** [find] itself never throws. *)
Lemma array_find_from_returns {A} (pred : A → bool) (l : list A) (i : nat) (w : World) :
  ∃ t r, array_find_from i pred l w = (t, inr r).
Proof.
  revert i. induction l as [|x l IH]; intros i; simpl; [by eexists _, _|].
  unfold mbind, gate_bind, emit.
  destruct (pred x); [by eexists _, _|].
  destruct (IH (S i)) as (t & r & ->). by eexists _, _.
Qed.

(** A list with a matching element splits at its first matching element. *)
Lemma first_match {A} (pred : A → bool) (l : list A) :
  (∃ x, x ∈ l ∧ pred x = true) →
  ∃ l1 x l2, l = l1 ++ x :: l2 ∧ (∀ y, y ∈ l1 → pred y = false) ∧ pred x = true.
Proof.
  induction l as [|y l IH]; intros (x & Hin & Hx).
  - by apply elem_of_nil in Hin.
  - destruct (pred y) eqn:Hy.
    + exists [], y, l. split_and!; [done| |done]. intros z Hz. by apply elem_of_nil in Hz.
    + destruct IH as (l1 & x' & l2 & -> & Hall & Hx').
      { apply elem_of_cons in Hin as [->|Hin]; [congruence|eauto]. }
      exists (y :: l1), x', l2. split_and!; [done| |done].
      intros z Hz. apply elem_of_cons in Hz as [->|Hz]; auto.
Qed.

(** The body of the organization gate on a context that has an organization. *)
Lemma hasOrgSlug_body_no_member {In} (i : In) (ctx : BaseContext Id) o w :
  org ctx = Some o →
  (∀ m, m ∈ members o →
        strict_eq_opt (member_accountId m) (account_id <$> account ctx) = false) →
  hasOrgSlug_body i ctx w
  = (MemberTested <$> seq 0 (length (members o)),
     inl (mkTRPCError UNAUTHORIZED
            "You are not a member of this organization, redirecting...")).
Proof.
  intros Ho Hall. unfold hasOrgSlug_body. rewrite Ho.
  unfold mbind, gate_bind, array_find.
  rewrite array_find_from_none by done. simpl. by rewrite app_nil_r.
Qed.

Lemma hasOrgSlug_body_member {In} (i : In) (ctx : BaseContext Id) o a l1 m l2 w :
  org ctx = Some o → account ctx = Some a → truthy (account_id a) = true →
  members o = l1 ++ m :: l2 →
  (∀ m', m' ∈ l1 → member_accountId m' ≠ account_id a) →
  member_accountId m = account_id a →
  hasOrgSlug_body i ctx w
  = (MemberTested <$> seq 0 (S (length l1)), inr (with_member ctx o m)).
Proof.
  intros Ho Ha Ht Hm Hall Heq. unfold hasOrgSlug_body. rewrite Ho, Hm, Ha.
  unfold mbind, gate_bind, array_find.
  rewrite array_find_from_first; cycle 1.
  { intros m' Hm'. simpl. apply bool_decide_eq_false. by apply Hall. }
  { simpl. by apply bool_decide_eq_true. }
  cbn [fmap option_fmap option_map truthy option_truthy]. rewrite Ht.
  unfold mret, gate_ret, with_member. simpl. by rewrite app_nil_r, Ha.
Qed.

(** C2. On a context that has an organization: when the account id is
    missing the gate's own check throws UNAUTHORIZED; for an authenticated
    account, the gate throws UNAUTHORIZED when no member of the organization
    carries the account's id, and when one does it forwards the context with
    [org.memberId] set to the id of the matched record, the first such member
    of the list. *)
Theorem hasOrgSlug_membership {In} (i : In) (ctx : BaseContext Id)
    (o : OrgContext Id) (w : World) :
  org ctx = Some o →
  (truthy (account_id <$> account ctx) = false →
     aborts_with UNAUTHORIZED (hasOrgSlug_body i ctx w))
  ∧ ∀ a, authenticated ctx a →
      ((∀ m, m ∈ members o → member_accountId m ≠ account_id a) →
         aborts_with UNAUTHORIZED (hasOrgSlug i ctx w))
      ∧ (∀ l1 m l2,
           members o = l1 ++ m :: l2 →
           (∀ m', m' ∈ l1 → member_accountId m' ≠ account_id a) →
           member_accountId m = account_id a →
           forwards (hasOrgSlug i ctx w) (with_member ctx o m)
           ∧ memberId (org (with_member ctx o m)) = member_id m)
      ∧ ((∃ m, m ∈ members o ∧ member_accountId m = account_id a) →
           ∃ m, m ∈ members o ∧ member_accountId m = account_id a
                ∧ forwards (hasOrgSlug i ctx w) (with_member ctx o m)).
Proof.
  intros Ho. split.
  - intros Hmiss. unfold hasOrgSlug_body. rewrite Ho.
    unfold mbind, gate_bind, array_find.
    destruct (array_find_from_returns
                (λ member : Member Id,
                   strict_eq_opt (member_accountId member) (account_id <$> account ctx))
                (members o) 0 w) as (t & r & ->).
    rewrite Hmiss. destruct r; simpl; by eexists.
  - intros a Hauth.
    assert (Hfirst : ∀ l1 m l2,
      members o = l1 ++ m :: l2 →
      (∀ m', m' ∈ l1 → member_accountId m' ≠ account_id a) →
      member_accountId m = account_id a →
      forwards (hasOrgSlug i ctx w) (with_member ctx o m)).
    { intros l1 m l2 Hm Hall Heq. unfold forwards, hasOrgSlug, unstable_pipe.
      rewrite (bind_next _ _ w [] ctx) by by eapply isAccountAuthenticated_authenticated.
      destruct Hauth as (Ha & _ & Ht).
      by rewrite (hasOrgSlug_body_member i ctx o a l1 m l2 w). }
    split_and!.
    + intros Hnone. unfold hasOrgSlug, unstable_pipe.
      rewrite (bind_next _ _ w [] ctx) by by eapply isAccountAuthenticated_authenticated.
      rewrite (hasOrgSlug_body_no_member i ctx o w Ho).
      * by eexists.
      * intros m Hm. destruct Hauth as (-> & _). simpl.
        apply bool_decide_eq_false. by apply Hnone.
    + intros l1 m l2 Hm Hall Heq. split; [by eapply Hfirst | done].
    + intros Hex.
      destruct (first_match (λ m, bool_decide (member_accountId m = account_id a))
                  (members o)) as (l1 & m & l2 & Hm & Hall & Heq).
      { destruct Hex as (m & Hin & Heq). exists m. split; [done|].
        by apply bool_decide_eq_true. }
      apply bool_decide_eq_true in Heq.
      exists m. split_and!; [|done|].
      * rewrite Hm. apply elem_of_app. right. by left.
      * eapply Hfirst; [done| |done].
        intros m' Hm'. specialize (Hall m' Hm'). by apply bool_decide_eq_false in Hall.
Qed.

(** C3. Without a selected organization the organization gate throws
    BAD_REQUEST and its trace is empty: the [find] predicate is called on no
    member.  This holds of the gate's own check, and of the whole gate on an
    authenticated context. *)
Theorem hasOrgSlug_no_org {In} (i : In) (ctx : BaseContext Id) (w : World) :
  org ctx = None →
  hasOrgSlug_body i ctx w
  = ([], inl (mkTRPCError BAD_REQUEST "Invalid organization selected, redirecting..."))
  ∧ ∀ a, authenticated ctx a →
      hasOrgSlug i ctx w
      = ([], inl (mkTRPCError BAD_REQUEST "Invalid organization selected, redirecting..."))
      ∧ aborts_with BAD_REQUEST (hasOrgSlug i ctx w)
      ∧ ∀ k, MemberTested k ∉ (hasOrgSlug i ctx w).1.
Proof.
  intros Ho.
  assert (Hbody : hasOrgSlug_body i ctx w
    = ([], inl (mkTRPCError BAD_REQUEST "Invalid organization selected, redirecting..."))).
  { unfold hasOrgSlug_body. by rewrite Ho. }
  split; [done|]. intros a Hauth.
  assert (Hgate : hasOrgSlug i ctx w
    = ([], inl (mkTRPCError BAD_REQUEST "Invalid organization selected, redirecting..."))).
  { unfold hasOrgSlug, unstable_pipe.
    rewrite (bind_next _ _ w [] ctx) by by eapply isAccountAuthenticated_authenticated.
    by rewrite Hbody. }
  rewrite Hgate. split_and!; [done|by eexists|].
  intros k Hk. by apply elem_of_nil in Hk.
Qed.

Lemma string_truthy_false (s : string) : truthy s = false ↔ s = "".
Proof. by destruct s. Qed.

Lemma string_truthy_true (s : string) : truthy s = true ↔ s ≠ "".
Proof. by destruct s. Qed.

(** The three branches of the bot-verification gate. *)
Lemma turnstile_no_secret {C} (i : TurnstileInput) (ctx : C) (w : World) :
  turnstile_secretKey (useRuntimeConfig w) = "" →
  turnstileTokenValidation i ctx w = ([], inr ctx).
Proof. intros Hs. unfold turnstileTokenValidation, mbind, gate_bind, ask. by rewrite Hs. Qed.

Lemma turnstile_no_token {C} (i : TurnstileInput) (ctx : C) (w : World) :
  turnstile_secretKey (useRuntimeConfig w) ≠ "" →
  truthy (turnstileToken i) = false →
  turnstileTokenValidation i ctx w
  = if bool_decide (NODE_ENV w = Some "development")
    then ([], inr ctx)
    else ([], inl (mkTRPCError FORBIDDEN "Missing Turnstile Verification Token")).
Proof.
  intros Hs Ht. apply string_truthy_true in Hs.
  unfold turnstileTokenValidation, mbind, gate_bind, ask.
  rewrite Hs, Ht. simpl. by case_bool_decide.
Qed.

Lemma turnstile_token {C} (i : TurnstileInput) (ctx : C) (w : World) token :
  turnstile_secretKey (useRuntimeConfig w) ≠ "" →
  turnstileToken i = Some token → token ≠ "" →
  turnstileTokenValidation i ctx w
  = ([TurnstileVerify token (turnstile_secretKey (useRuntimeConfig w))],
     if verifyTurnstileToken w token (turnstile_secretKey (useRuntimeConfig w))
     then inr ctx
     else inl (mkTRPCError BAD_REQUEST "Invalid Turnstile Verification Token")).
Proof.
  intros Hs Hi Ht. apply string_truthy_true in Hs, Ht.
  unfold turnstileTokenValidation, mbind, gate_bind, ask, call_verifyTurnstileToken.
  rewrite Hs, Hi. cbn [truthy option_truthy negb default from_option id]. rewrite Ht. simpl.
  by destruct (verifyTurnstileToken w token _).
Qed.

(** C4, as the code has it.  Without a configured secret the gate forwards
    whatever the token; with a secret and no token or an empty-string token
    it calls no verifier and forwards in development mode, throwing FORBIDDEN
    otherwise; with a secret and a non-empty token it calls the verifier once,
    with (token, secret), throws BAD_REQUEST on an unsuccessful verdict and
    forwards the unchanged context otherwise. *)
Theorem turnstileTokenValidation_gate {C} (i : TurnstileInput) (ctx : C) (w : World) :
  let r := turnstileTokenValidation i ctx w in
  let secretKey := turnstile_secretKey (useRuntimeConfig w) in
  (secretKey = "" → r = ([], inr ctx))
  ∧ (secretKey ≠ "" → turnstileToken i = None ∨ turnstileToken i = Some "" →
       r.1 = [] ∧
       if bool_decide (NODE_ENV w = Some "development")
       then forwards r ctx else aborts_with FORBIDDEN r)
  ∧ (secretKey ≠ "" → ∀ token, turnstileToken i = Some token → token ≠ "" →
       r.1 = [TurnstileVerify token secretKey] ∧
       if verifyTurnstileToken w token secretKey
       then forwards r ctx else aborts_with BAD_REQUEST r).
Proof.
  cbv zeta. split_and!.
  - apply turnstile_no_secret.
  - intros Hs Hi. rewrite turnstile_no_token; [|done|by destruct Hi as [-> | ->]].
    case_bool_decide; (split; [done|]); [done|by eexists].
  - intros Hs token Hi Ht. rewrite (turnstile_token i ctx w token) by done.
    split; [done|]. destruct (verifyTurnstileToken w token _); [done|by eexists].
Qed.

Lemma or_else_spec (a : option string) (b : string) :
  (a = None → or_else a b = b)
  ∧ (a = Some "" → or_else a b = b)
  ∧ (∀ s, a = Some s → s ≠ "" → or_else a b = s).
Proof.
  split_and!; [by intros -> | by intros -> |].
  intros s -> Hs. unfold or_else. apply string_truthy_true in Hs. by rewrite Hs.
Qed.

Lemma createRatelimiter_run {In O} (startup w : World) (limit : Z)
    (duration namespace : string) (i : In) (ctx : Context Id O) :
  let unkey := new_unkey (unkey_rootKey (useRuntimeConfig startup)) limit duration namespace in
  let identifier := or_else (getRequestIP (event ctx)) "unknown" in
  createRatelimiter startup limit duration namespace i ctx w
  = ([UnkeyLimit unkey identifier],
     if limit_success w unkey identifier
     then inr ctx
     else inl (mkTRPCError TOO_MANY_REQUESTS "Too many requests, please try again later")).
Proof.
  cbv zeta. unfold createRatelimiter, mbind, gate_bind, unkey_limit.
  by destruct (limit_success w _ _).
Qed.

(** C5. A rate limiter gate calls its limiter once, with the caller IP of
    the transport event as identifier, or the string "unknown" when the event
    has no IP (none, or an empty one); it throws TOO_MANY_REQUESTS when the limiter's verdict is a
    failure and forwards the unchanged context otherwise.  When no root
    credential is configured the limiter is the no-op one, whose verdict is
    always success, and the gate forwards. *)
Theorem createRatelimiter_gate {In O} (startup w : World) (limit : Z)
    (duration namespace : string) (i : In) (ctx : Context Id O) :
  let rootKey := unkey_rootKey (useRuntimeConfig startup) in
  let unkey := new_unkey rootKey limit duration namespace in
  let r := createRatelimiter startup limit duration namespace i ctx w in
  (∃ identifier,
      r.1 = [UnkeyLimit unkey identifier]
      ∧ (getRequestIP (event ctx) = None ∨ getRequestIP (event ctx) = Some "" →
           identifier = "unknown")
      ∧ (∀ ip, getRequestIP (event ctx) = Some ip → ip ≠ "" → identifier = ip)
      ∧ (limit_success w unkey identifier = false → aborts_with TOO_MANY_REQUESTS r)
      ∧ (limit_success w unkey identifier = true → r = ([UnkeyLimit unkey identifier], inr ctx)))
  ∧ (rootKey = "" →
       unkey = NoopRatelimit
       ∧ (∀ identifier, limit_success w unkey identifier = true)
       ∧ forwards r ctx).
Proof.
  cbv zeta. rewrite createRatelimiter_run.
  destruct (or_else_spec (getRequestIP (event ctx)) "unknown") as (Hnone & Hempty & Hsome).
  split.
  - eexists. split_and!; [done|by intros [?|?]; auto|done| |].
    + intros ->. by eexists.
    + by intros ->.
  - intros Hr. rewrite Hr. by split_and!.
Qed.

(** *** Composition of the procedures *)

Lemma mret_bind {A B} (a : A) (k : A → Gate B) (w : World) : (mret a ≫= k) w = k a w.
Proof. unfold mbind, gate_bind, mret, gate_ret. by destruct (k a w). Qed.

Lemma bind_assoc {A B C} (m : Gate A) (k : A → Gate B) (h : B → Gate C) (w : World) :
  ((m ≫= k) ≫= h) w = (m ≫= (λ a, k a ≫= h)) w.
Proof.
  unfold mbind, gate_bind. destruct (m w) as [t [e|a]]; [done|].
  destruct (k a w) as [t' [e|b]]; [done|].
  destruct (h b w) as [t'' r]. by rewrite app_assoc.
Qed.

(** A call of the procedure built for a route: the schema first, then the
    bot-verification gate, then the route's rate limiter gate. *)
Lemma call_rateLimited (startup w : World) (key : string) (limit : Z) (duration : string)
    (raw : RawInput) (ctx : BaseContext Id) :
  call (rateLimited startup key limit duration) raw ctx w
  = match zod_turnstile raw with
    | Some i =>
        (ctx' ← turnstileTokenValidation i ctx;
         createRatelimiter startup limit duration ("public." +:+ key) i ctx') w
    | None => ([], inl (mkTRPCError BAD_REQUEST "Input validation failed"))
    end.
Proof.
  unfold call, rateLimited, use, input, procedure, unstable_pipe. simpl.
  destruct (zod_turnstile raw) as [i|]; [|done].
  unfold mbind at 1. unfold gate_bind at 1. by rewrite mret_bind.
Qed.

(** A call of the enterprise procedure. *)
Lemma call_eeProcedure (w : World) (raw : RawInput) (ctx : BaseContext Id) :
  call eeProcedure raw ctx w
  = (ctx1 ← isAccountAuthenticated tt ctx;
     ctx2 ← hasOrgSlug_body tt ctx1;
     isEeEnabled tt ctx2) w.
Proof.
  unfold call, eeProcedure, orgProcedure, use, procedure, hasOrgSlug, unstable_pipe.
  simpl. by rewrite bind_assoc, mret_bind, bind_assoc.
Qed.

(** The table the fold builds, read entry by entry. *)
Lemma publicRateLimitedProcedure_fold (startup : World)
    (table : list (string * (Z * string)))
    (acc : gmap string (Procedure Id TurnstileInput (BaseContext Id))) (key : string) :
  NoDup table.*1 →
  foldl (λ acc '(key, (limit, duration)),
           <[ key := rateLimited startup key limit duration ]> acc) acc table !! key
  = match (list_to_map table : gmap string (Z * string)) !! key with
    | Some ld => Some (rateLimited startup key ld.1 ld.2)
    | None => acc !! key
    end.
Proof.
  revert acc. induction table as [|[k [limit duration]] table IH]; intros acc Hnd.
  - simpl. by rewrite lookup_empty.
  - apply NoDup_cons in Hnd as [Hk Hnd]. simpl. rewrite IH by done.
    destruct (decide (key = k)) as [->|Hne].
    + rewrite lookup_insert_eq. rewrite not_elem_of_list_to_map_1 by done.
      by rewrite lookup_insert_eq.
    + rewrite (lookup_insert_ne (list_to_map table)) by done.
      destruct (list_to_map table !! key); [done|]. by rewrite lookup_insert_ne.
Qed.

Lemma publicRateLimits_NoDup : NoDup publicRateLimits.*1.
Proof. compute_done. Qed.

Lemma publicRateLimitedProcedure_lookup (startup : World) (key : string) :
  publicRateLimitedProcedure (Id:=Id) startup !! key
  = (λ ld, rateLimited startup key ld.1 ld.2)
      <$> (list_to_map publicRateLimits : gmap string (Z * string)) !! key.
Proof.
  unfold publicRateLimitedProcedure.
  rewrite publicRateLimitedProcedure_fold by apply publicRateLimits_NoDup.
  destruct (list_to_map publicRateLimits !! key); [done|]. by rewrite lookup_empty.
Qed.

Lemma isEeEnabled_run {In C} (i : In) (ctx : C) (w : World) :
  isEeEnabled i ctx w
  = ([], if truthy (enabled <$> billing (useRuntimeConfig w))
         then inr ctx
         else inl (mkTRPCError PRECONDITION_FAILED
                     "Enterprise Edition features are disabled on this server")).
Proof.
  unfold isEeEnabled, mbind, gate_bind, ask.
  by destruct (truthy (enabled <$> billing (useRuntimeConfig w))).
Qed.

(** The bot-verification gate calls nothing but the verifier. *)
Lemma turnstile_trace {C} (i : TurnstileInput) (ctx : C) (w : World) (e : Effect) :
  e ∈ (turnstileTokenValidation i ctx w).1 →
  ∃ response secretKey, e = TurnstileVerify response secretKey.
Proof.
  destruct (decide (turnstile_secretKey (useRuntimeConfig w) = "")) as [Hs|Hs].
  { rewrite turnstile_no_secret by done. intros He. by apply elem_of_nil in He. }
  destruct (truthy (turnstileToken i)) eqn:Ht.
  - destruct (turnstileToken i) as [token|] eqn:Hi; [|done].
    rewrite (turnstile_token i ctx w token); [|done|done|by apply string_truthy_true].
    intros He. apply list_elem_of_singleton in He. by eexists _, _.
  - rewrite turnstile_no_token by done.
    case_bool_decide; intros He; by apply elem_of_nil in He.
Qed.

Lemma zod_turnstile_Some (raw : RawInput) (i : TurnstileInput) :
  zod_turnstile raw = Some i ↔
  ∃ fields s, raw = RawObject fields
              ∧ fields !! "turnstileToken" = Some (RawString s)
              ∧ i = mkTurnstileInput (Some s).
Proof.
  split.
  - destruct raw as [fields|]; [|done]. simpl.
    destruct (fields !! "turnstileToken") as [[s| | |]|] eqn:Hf; try done.
    intros [= <-]. by eexists _, _.
  - intros (fields & s & -> & Hf & ->). simpl. by rewrite Hf.
Qed.

(** C7. The enterprise procedure runs the authentication gate, then the
    organization membership check, then the feature-flag gate: a request that
    fails an earlier gate is answered by that gate whatever the later ones
    would say.  The table of public rate-limited procedures has exactly the
    route names of the static route table as keys; the procedure of a route
    refuses with BAD_REQUEST, as tRPC does for an input its schema rejects,
    an input that has no string field [turnstileToken], runs the
    bot-verification gate and, only when that gate forwards, the route's rate
    limiter gate, whose limiter has the namespace "public." followed by the
    route name. *)
Theorem procedures_compose (startup w : World) :
  (∀ raw (ctx : BaseContext Id),
     call eeProcedure raw ctx w
     = (ctx1 ← isAccountAuthenticated tt ctx;
        ctx2 ← hasOrgSlug_body tt ctx1;
        isEeEnabled tt ctx2) w
     ∧ (unauthenticated ctx →
          call eeProcedure raw ctx w
          = ([], inl (mkTRPCError UNAUTHORIZED "You are not logged in, redirecting...")))
     ∧ (∀ a, authenticated ctx a →
          (∀ t e, hasOrgSlug_body tt ctx w = (t, inl e) →
                  call eeProcedure raw ctx w = (t, inl e))
          ∧ (∀ t ctx', hasOrgSlug_body tt ctx w = (t, inr ctx') →
                  call eeProcedure raw ctx w = (t, (isEeEnabled tt ctx' w).2))))
  ∧ (∀ key, is_Some (publicRateLimitedProcedure (Id:=Id) startup !! key)
            ↔ key ∈ publicRateLimits.*1)
  ∧ (∀ raw, is_Some (zod_turnstile raw)
            ↔ ∃ fields s, raw = RawObject fields
                          ∧ fields !! "turnstileToken" = Some (RawString s))
  ∧ (∀ key limit duration,
       (key, (limit, duration)) ∈ publicRateLimits →
       ∃ p, publicRateLimitedProcedure startup !! key = Some p ∧
         ∀ raw (ctx : BaseContext Id),
           (zod_turnstile raw = None → aborts_with BAD_REQUEST (call p raw ctx w)
                                       ∧ (call p raw ctx w).1 = [])
           ∧ ∀ i, zod_turnstile raw = Some i →
               (∀ t e, turnstileTokenValidation i ctx w = (t, inl e) →
                       call p raw ctx w = (t, inl e)
                       ∧ ∀ unkey identifier, UnkeyLimit unkey identifier ∉ t)
               ∧ (∀ t ctx', turnstileTokenValidation i ctx w = (t, inr ctx') →
                       call p raw ctx w
                       = (t ++ (createRatelimiter startup limit duration
                                  ("public." +:+ key) i ctx' w).1,
                          (createRatelimiter startup limit duration
                             ("public." +:+ key) i ctx' w).2)
                       ∧ (call p raw ctx w).1
                         = t ++ [UnkeyLimit
                                   (new_unkey (unkey_rootKey (useRuntimeConfig startup))
                                      limit duration ("public." +:+ key))
                                   (or_else (getRequestIP (event ctx')) "unknown")])).
Proof.
  split_and!.
  - intros raw ctx. rewrite call_eeProcedure. split_and!; [done| |].
    + intros Hu. apply bind_throw.
      by apply isAccountAuthenticated_unauthenticated.
    + intros a Hauth.
      pose proof (isAccountAuthenticated_authenticated tt ctx a w Hauth) as Ha.
      split.
      * intros t e Hb. rewrite (bind_next _ _ w [] ctx) by done.
        by rewrite (bind_throw _ _ w t e).
      * intros t ctx' Hb. rewrite (bind_next _ _ w [] ctx) by done.
        rewrite (bind_next _ _ w t ctx') by done.
        rewrite isEeEnabled_run. simpl. by rewrite app_nil_r.
  - intros key. rewrite publicRateLimitedProcedure_lookup, fmap_is_Some.
    rewrite <- not_eq_None_Some, <- not_elem_of_list_to_map.
    split; [apply dec_stable | by intros ? ?].
  - intros raw. split.
    + intros [i Hi]. apply zod_turnstile_Some in Hi as (fields & s & ? & ? & _).
      by exists fields, s.
    + intros (fields & s & Hr & Hf). exists (mkTurnstileInput (Some s)).
      apply zod_turnstile_Some. by exists fields, s.
  - intros key limit duration Hin.
    apply (elem_of_list_to_map (M:=gmap string)) in Hin; [|apply publicRateLimits_NoDup].
    eexists. split; [by rewrite publicRateLimitedProcedure_lookup, Hin|].
    simpl. intros raw ctx. rewrite call_rateLimited. split.
    + intros ->. split; [by eexists|done].
    + intros i ->. split.
      * intros t e Ht. split; [by apply bind_throw|].
        intros unkey identifier Hu.
        destruct (turnstile_trace i ctx w (UnkeyLimit unkey identifier)) as (? & ? & ?);
          [by rewrite Ht|done].
      * intros t ctx' Ht. rewrite (bind_next _ _ w t ctx') by done.
        split; [done|]. by rewrite createRatelimiter_run.
Qed.

(** C10. With a secret configured and outside development mode, the empty
    string passes the input schema of the public rate-limited procedures, and
    the bot-verification gate answers it as it answers a missing token:
    FORBIDDEN, with an empty trace, so the verifier is not called; the call
    of such a procedure ends there, with the same answer and an empty trace. *)
Theorem empty_token_forbidden (ctx : BaseContext Id) (w : World)
    (fields : gmap string RawValue) :
  turnstile_secretKey (useRuntimeConfig w) ≠ "" →
  NODE_ENV w ≠ Some "development" →
  fields !! "turnstileToken" = Some (RawString "") →
  zod_turnstile (RawObject fields) = Some (mkTurnstileInput (Some ""))
  ∧ turnstileTokenValidation (mkTurnstileInput (Some "")) ctx w
    = ([], inl (mkTRPCError FORBIDDEN "Missing Turnstile Verification Token"))
  ∧ turnstileTokenValidation (mkTurnstileInput (Some "")) ctx w
    = turnstileTokenValidation (mkTurnstileInput None) ctx w
  ∧ aborts_with FORBIDDEN (turnstileTokenValidation (mkTurnstileInput (Some "")) ctx w)
  ∧ (∀ response secretKey,
       TurnstileVerify response secretKey
       ∉ (turnstileTokenValidation (mkTurnstileInput (Some "")) ctx w).1)
  ∧ ∀ startup key p,
      publicRateLimitedProcedure startup !! key = Some p →
      call p (RawObject fields) ctx w
      = ([], inl (mkTRPCError FORBIDDEN "Missing Turnstile Verification Token")).
Proof.
  intros Hs Hdev Hf.
  assert (Hempty : turnstileTokenValidation (mkTurnstileInput (Some "")) ctx w
    = ([], inl (mkTRPCError FORBIDDEN "Missing Turnstile Verification Token"))).
  { rewrite turnstile_no_token by done. by rewrite bool_decide_eq_false_2. }
  assert (Hzod : zod_turnstile (RawObject fields) = Some (mkTurnstileInput (Some ""))).
  { unfold zod_turnstile. by rewrite Hf. }
  split_and!.
  - done.
  - done.
  - rewrite Hempty, turnstile_no_token by done. by rewrite bool_decide_eq_false_2.
  - rewrite Hempty. by eexists.
  - rewrite Hempty. intros response secretKey Hin. by apply elem_of_nil in Hin.
  - intros startup key p. rewrite publicRateLimitedProcedure_lookup.
    destruct (list_to_map publicRateLimits !! key) as [ld|]; [|done].
    intros [= <-]. rewrite call_rateLimited, Hzod. by apply bind_throw.
Qed.

(** Neither gate of a public rate-limited procedure reads the root
    credential of the world it is called in. *)
Lemma turnstile_with_rootKey {C} (i : TurnstileInput) (ctx : C) (w : World) rootKey :
  turnstileTokenValidation i ctx (with_rootKey rootKey w)
  = turnstileTokenValidation i ctx w.
Proof.
  unfold turnstileTokenValidation, mbind, gate_bind, ask, call_verifyTurnstileToken.
  simpl. destruct (truthy (turnstile_secretKey _)); simpl; [|done].
  destruct (truthy (turnstileToken i)); simpl.
  - by destruct (verifyTurnstileToken w _ _).
  - by case_bool_decide.
Qed.

Lemma createRatelimiter_with_rootKey {In O} (startup w : World) (limit : Z)
    (duration namespace : string) (i : In) (ctx : Context Id O) rootKey :
  createRatelimiter startup limit duration namespace i ctx (with_rootKey rootKey w)
  = createRatelimiter startup limit duration namespace i ctx w.
Proof. rewrite !createRatelimiter_run. reflexivity. Qed.

(** C6, as the code has it.  The enterprise flag is read when the
    feature-flag gate runs, the verification secret and the runtime mode when
    the bot-verification gate runs.  The root credential is read once, when
    [createRatelimiter] builds the gate: the limiter the gate calls is the
    one built from the credential of that moment, and a call answers the
    same whatever the credential has become since; so do the public
    rate-limited procedures. *)
Theorem configuration_read_times {In O} (i : In) (ti : TurnstileInput)
    (startup w : World) (limit : Z) (duration namespace : string)
    (ctx : Context Id O) (rootKey' : string) :
  (forwards (isEeEnabled i ctx w) ctx
     ↔ truthy (enabled <$> billing (useRuntimeConfig w)) = true)
  ∧ (aborts_with PRECONDITION_FAILED (isEeEnabled i ctx w)
     ↔ truthy (enabled <$> billing (useRuntimeConfig w)) = false)
  ∧ (turnstile_secretKey (useRuntimeConfig w) = "" →
       forwards (turnstileTokenValidation ti ctx w) ctx)
  ∧ (turnstile_secretKey (useRuntimeConfig w) ≠ "" →
     truthy (turnstileToken ti) = false →
       (forwards (turnstileTokenValidation ti ctx w) ctx
          ↔ NODE_ENV w = Some "development")
       ∧ (aborts_with FORBIDDEN (turnstileTokenValidation ti ctx w)
          ↔ NODE_ENV w ≠ Some "development"))
  ∧ (createRatelimiter startup limit duration namespace i ctx w).1
    = [UnkeyLimit
         (new_unkey (unkey_rootKey (useRuntimeConfig startup)) limit duration namespace)
         (or_else (getRequestIP (event ctx)) "unknown")]
  ∧ createRatelimiter startup limit duration namespace i ctx (with_rootKey rootKey' w)
    = createRatelimiter startup limit duration namespace i ctx w
  ∧ ∀ key p raw (bctx : BaseContext Id),
      publicRateLimitedProcedure startup !! key = Some p →
      call p raw bctx (with_rootKey rootKey' w) = call p raw bctx w.
Proof.
  split_and!.
  - rewrite isEeEnabled_run. unfold forwards. simpl.
    destruct (truthy _); split; done.
  - rewrite isEeEnabled_run. unfold aborts_with. simpl.
    destruct (truthy _); split; try done.
    + by intros (e & ? & _).
    + intros _. by eexists.
  - intros Hs. by rewrite turnstile_no_secret.
  - intros Hs Ht. rewrite turnstile_no_token by done.
    unfold forwards, aborts_with.
    case_bool_decide; simpl; split_and!; try done.
    + split; [by intros (e & ? & _)|done].
    + split; [done|]. intros _. by eexists.
  - by rewrite createRatelimiter_run.
  - apply createRatelimiter_with_rootKey.
  - intros key p raw bctx. rewrite publicRateLimitedProcedure_lookup.
    destruct (list_to_map publicRateLimits !! key) as [ld|]; [|done].
    intros [= <-]. rewrite !call_rateLimited.
    destruct (zod_turnstile raw) as [ti'|]; [|done].
    unfold mbind, gate_bind. rewrite turnstile_with_rootKey.
    destruct (turnstileTokenValidation ti' bctx w) as [t [e|ctx']]; [done|].
    by rewrite createRatelimiter_with_rootKey.
Qed.

(** What [find] returns is an element of the list. *)
Lemma array_find_from_elem {A} (pred : A → bool) (l : list A) (i : nat) (w : World) t x :
  array_find_from i pred l w = (t, inr (Some x)) → x ∈ l.
Proof.
  revert i t. induction l as [|y l IH]; intros i t; simpl; [done|].
  unfold mbind, gate_bind, emit.
  destruct (pred y).
  - intros [= _ <-]. by left.
  - destruct (array_find_from (S i) pred l w) as [t' r] eqn:Hf.
    intros [= _ ->]. right. by eapply IH.
Qed.

Lemma hasOrgSlug_body_forwards {In} (i : In) (ctx : BaseContext Id) (w : World) ctx' :
  forwards (hasOrgSlug_body i ctx w) ctx' →
  account ctx' = account ctx ∧ event ctx' = event ctx
  ∧ org ctx = Some (org_base (org ctx'))
  ∧ ∃ m, m ∈ members (org_base (org ctx')) ∧ memberId (org ctx') = member_id m.
Proof.
  unfold forwards, hasOrgSlug_body.
  destruct (org ctx) as [o|]; [|done].
  unfold mbind, gate_bind, array_find.
  destruct (array_find_from 0 _ (members o) w) as [t [e|[m|]]] eqn:Hf; try done.
  destruct (truthy (account_id <$> account ctx)); [|done].
  simpl. intros [= <-]. simpl. split_and!; try done.
  exists m. split; [|done]. by eapply array_find_from_elem.
Qed.

(** C9. A gate that forwards hands on the context it received: the
    authentication, feature-flag, bot-verification and rate limiter gates
    forward it as it is, and the organization membership gate forwards it
    with the account and the event as they were and the organization it had,
    extended with [memberId], the id of one of the organization's members. *)
Theorem gates_preserve_context {In O} (i : In) (ti : TurnstileInput)
    (startup w : World) (limit : Z) (duration namespace : string) :
  (∀ ctx ctx' : Context Id O,
     forwards (isAccountAuthenticated i ctx w) ctx' → ctx' = ctx)
  ∧ (∀ (ctx : BaseContext Id) (ctx' : OrgMemberContext Id),
       forwards (hasOrgSlug i ctx w) ctx' →
       account ctx' = account ctx ∧ event ctx' = event ctx
       ∧ org ctx = Some (org_base (org ctx'))
       ∧ ∃ m, m ∈ members (org_base (org ctx')) ∧ memberId (org ctx') = member_id m)
  ∧ (∀ ctx ctx' : Context Id O, forwards (isEeEnabled i ctx w) ctx' → ctx' = ctx)
  ∧ (∀ ctx ctx' : Context Id O,
       forwards (turnstileTokenValidation ti ctx w) ctx' → ctx' = ctx)
  ∧ (∀ ctx ctx' : Context Id O,
       forwards (createRatelimiter startup limit duration namespace i ctx w) ctx' →
       ctx' = ctx).
Proof.
  assert (Hauth : ∀ O' (ctx ctx' : Context Id O'),
    forwards (isAccountAuthenticated i ctx w) ctx' → ctx' = ctx).
  { intros O' ctx ctx'. unfold forwards, isAccountAuthenticated.
    destruct (match account ctx with Some _ => _ | None => _ end); [done|].
    simpl. intros [= <-]. by destruct ctx. }
  split_and!.
  - apply Hauth.
  - intros ctx ctx'. unfold forwards, hasOrgSlug, unstable_pipe, mbind, gate_bind.
    destruct (isAccountAuthenticated i ctx w) as [t [e|ctx1]] eqn:Ha; [done|].
    assert (ctx1 = ctx) as -> by (apply Hauth; unfold forwards; by rewrite Ha).
    destruct (hasOrgSlug_body i ctx w) as [t' r] eqn:Hb. simpl. intros ->.
    apply (hasOrgSlug_body_forwards i ctx w). unfold forwards. by rewrite Hb.
  - intros ctx ctx'. rewrite isEeEnabled_run. unfold forwards. simpl.
    destruct (truthy _); [|done]. by intros [= <-].
  - intros ctx ctx'. unfold forwards.
    destruct (decide (turnstile_secretKey (useRuntimeConfig w) = "")) as [Hs|Hs].
    { rewrite turnstile_no_secret by done. by intros [= <-]. }
    destruct (truthy (turnstileToken ti)) eqn:Ht.
    + destruct (turnstileToken ti) as [token|] eqn:Hi; [|done].
      rewrite (turnstile_token ti ctx w token); [|done|done|by apply string_truthy_true].
      simpl. destruct (verifyTurnstileToken w token _); [|done]. by intros [= <-].
    + rewrite turnstile_no_token by done.
      case_bool_decide; [|done]. by intros [= <-].
  - intros ctx ctx'. rewrite createRatelimiter_run. unfold forwards. simpl.
    destruct (limit_success w _ _); [|done]. by intros [= <-].
Qed.

End PipelineProperties.

Section ResolverProperties.

Context {Id : Type}.

Lemma truthy_cookie (c : option string) :
  truthy c = false ↔ c = None ∨ c = Some "".
Proof.
  destruct c as [[|a s]|]; simpl; split; try done; auto.
  - by intros [?|?].
Qed.

(** C8. For every request, the handler sets the identity to null when the
    session cookie is absent (the test [!sessionCookie]: no cookie, or one
    with an empty value), without consulting the session store; when the
    cookie is present and the lookup under its value returns no record, it
    sets the identity to null; and when the lookup returns a record, it sets
    an identity whose id is the id embedded in the record and whose session
    is the whole record. *)
Theorem session_resolver (sessionStorage : string → Settled (option (DatabaseSession Id)))
    (event : H3Event) (context : H3EventContext Id) :
  let r := defineEventHandler sessionStorage event context in
  (cookie_absent event
     ↔ getCookie event "unsession" = None ∨ getCookie event "unsession" = Some "")
  ∧ (cookie_absent event →
       r = mkHandlerRun [] (Fulfilled tt) (mkH3EventContext (Some None)))
  ∧ (∀ c, getCookie event "unsession" = Some c → ¬ cookie_absent event →
       sessionStorage c = Fulfilled None →
       r = mkHandlerRun [c] (Fulfilled tt) (mkH3EventContext (Some None)))
  ∧ (∀ c so, getCookie event "unsession" = Some c → ¬ cookie_absent event →
       sessionStorage c = Fulfilled (Some so) →
       r = mkHandlerRun [c] (Fulfilled tt)
             (mkH3EventContext
                (Some (Some (mkUserContext (su_id (attr_user (ds_attributes so))) so))))
       ∧ ∀ u, user (context_after r) = Some (Some u) →
              uc_id u = su_id (attr_user (ds_attributes so)) ∧ uc_session u = so).
Proof.
  cbv zeta. unfold cookie_absent, defineEventHandler. split_and!.
  - apply truthy_cookie.
  - by intros ->.
  - intros c Hc Hp Hs. rewrite Hc in Hp |- *.
    destruct (truthy (Some c)) eqn:Ht; [|done]. simpl. by rewrite Hs.
  - intros c so Hc Hp Hs. rewrite Hc in Hp |- *.
    destruct (truthy (Some c)) eqn:Ht; [|done]. simpl. rewrite Hs.
    split; [done|]. simpl. by intros u [= <-].
Qed.

End ResolverProperties.

(** ** Properties of whole procedures *)

Section ProcedureProperties.

Context {Id : Type} `{!EqDecision Id} `{!Truthy Id}.

Lemma call_accountProcedure (raw : RawInput) (ctx : BaseContext Id) (w : World) :
  call accountProcedure raw ctx w = isAccountAuthenticated tt ctx w.
Proof.
  unfold call, accountProcedure, use, procedure, unstable_pipe. simpl.
  by rewrite mret_bind.
Qed.

Lemma call_orgProcedure (raw : RawInput) (ctx : BaseContext Id) (w : World) :
  call orgProcedure raw ctx w = hasOrgSlug tt ctx w.
Proof.
  unfold call, orgProcedure, use, procedure, unstable_pipe. simpl.
  by rewrite mret_bind.
Qed.

Lemma call_eeProcedure_org (raw : RawInput) (ctx : BaseContext Id) (w : World) :
  call eeProcedure raw ctx w
  = (ctx' ← hasOrgSlug tt ctx; isEeEnabled tt ctx') w.
Proof.
  unfold call, eeProcedure, orgProcedure, use, procedure, unstable_pipe. simpl.
  by rewrite bind_assoc, mret_bind.
Qed.

(** A context is authenticated or it is not. *)
Lemma authenticated_or_not {O} (ctx : Context Id O) :
  unauthenticated ctx ∨ ∃ a, authenticated ctx a.
Proof.
  unfold unauthenticated, authenticated, empty_id.
  destruct (account ctx) as [a|]; [|by left; left].
  destruct (truthy (sa_id (attr_account (attributes (session a))))) eqn:Hs;
    [|left; right; left; by exists a].
  destruct (truthy (account_id a)) eqn:Ht; [|left; right; right; by exists a].
  right. by exists a.
Qed.

Lemma authenticated_not_unauthenticated {O} (ctx : Context Id O) a :
  authenticated ctx a → ¬ unauthenticated ctx.
Proof.
  unfold unauthenticated, authenticated, empty_id.
  intros (Ha & Hs & Ht) [Hn | [(a' & Ha' & He) | (a' & Ha' & He)]]; simplify_eq; congruence.
Qed.

(** A list has a first element the predicate accepts, or none. *)
Lemma first_match_or_none {A} (pred : A → bool) (l : list A) :
  (∀ x, x ∈ l → pred x = false)
  ∨ ∃ l1 x l2, l = l1 ++ x :: l2 ∧ (∀ y, y ∈ l1 → pred y = false) ∧ pred x = true.
Proof.
  induction l as [|y l IH].
  - left. intros x Hx. by apply elem_of_nil in Hx.
  - destruct (pred y) eqn:Hy.
    + right. exists [], y, l. split_and!; [done| |done].
      intros z Hz. by apply elem_of_nil in Hz.
    + destruct IH as [Hall | (l1 & x & l2 & -> & Hall & Hx)].
      * left. intros x Hx. apply elem_of_cons in Hx as [->|Hx]; auto.
      * right. exists (y :: l1), x, l2. split_and!; [done| |done].
        intros z Hz. apply elem_of_cons in Hz as [->|Hz]; auto.
Qed.

(** The four ways a call of the organization gate ends. *)
Lemma hasOrgSlug_cases {In} (i : In) (ctx : BaseContext Id) (w : World) :
  (unauthenticated ctx
   ∧ hasOrgSlug i ctx w
     = ([], inl (mkTRPCError UNAUTHORIZED "You are not logged in, redirecting...")))
  ∨ (∃ a, authenticated ctx a ∧ org ctx = None
     ∧ hasOrgSlug i ctx w
       = ([], inl (mkTRPCError BAD_REQUEST
                     "Invalid organization selected, redirecting...")))
  ∨ (∃ a o, authenticated ctx a ∧ org ctx = Some o
     ∧ (∀ m, m ∈ members o → member_accountId m ≠ account_id a)
     ∧ hasOrgSlug i ctx w
       = (MemberTested <$> seq 0 (length (members o)),
          inl (mkTRPCError UNAUTHORIZED
                 "You are not a member of this organization, redirecting...")))
  ∨ (∃ a o l1 m l2, authenticated ctx a ∧ org ctx = Some o
     ∧ members o = l1 ++ m :: l2
     ∧ (∀ m', m' ∈ l1 → member_accountId m' ≠ account_id a)
     ∧ member_accountId m = account_id a
     ∧ hasOrgSlug i ctx w
       = (MemberTested <$> seq 0 (S (length l1)), inr (with_member ctx o m))).
Proof.
  destruct (authenticated_or_not ctx) as [Hu | [a Hauth]].
  { left. split; [done|]. unfold hasOrgSlug, unstable_pipe.
    apply bind_throw. by apply isAccountAuthenticated_unauthenticated. }
  right.
  assert (Hpipe : hasOrgSlug i ctx w = hasOrgSlug_body i ctx w).
  { unfold hasOrgSlug, unstable_pipe.
    rewrite (bind_next _ _ w [] ctx) by by eapply isAccountAuthenticated_authenticated.
    by destruct (hasOrgSlug_body i ctx w). }
  rewrite Hpipe.
  destruct (org ctx) as [o|] eqn:Ho.
  - right.
    destruct (first_match_or_none
                (λ m : Member Id, bool_decide (member_accountId m = account_id a))
                (members o)) as [Hall | (l1 & m & l2 & Hm & Hall & Hx)].
    + left. exists a, o. split_and!; [done|done| |].
      * intros m Hm. specialize (Hall m Hm). by apply bool_decide_eq_false in Hall.
      * apply hasOrgSlug_body_no_member; [done|].
        intros m Hm. destruct Hauth as (-> & _). simpl. by apply Hall.
    + right. exists a, o, l1, m, l2.
      apply bool_decide_eq_true in Hx. split_and!; try done.
      * intros m' Hm'. specialize (Hall m' Hm'). by apply bool_decide_eq_false in Hall.
      * destruct Hauth as (Ha & _ & Ht).
        apply (hasOrgSlug_body_member i ctx o a l1 m l2 w); try done.
        intros m' Hm'. specialize (Hall m' Hm'). by apply bool_decide_eq_false in Hall.
  - left. exists a. split_and!; [done|done|].
    unfold hasOrgSlug_body. by rewrite Ho.
Qed.

(** The organization gate reads nothing of the world it runs in. *)
Lemma array_find_from_world {A} (pred : A → bool) (l : list A) (i : nat) (w w' : World) :
  array_find_from i pred l w = array_find_from i pred l w'.
Proof.
  revert i. induction l as [|x l IH]; intros i; simpl; [done|].
  unfold mbind, gate_bind, emit. destruct (pred x); [done|]. by rewrite (IH (S i)).
Qed.

Lemma hasOrgSlug_world {In} (i : In) (ctx : BaseContext Id) (w w' : World) :
  hasOrgSlug i ctx w = hasOrgSlug i ctx w'.
Proof.
  unfold hasOrgSlug, unstable_pipe, mbind, gate_bind.
  assert (Ha : isAccountAuthenticated i ctx w = isAccountAuthenticated i ctx w').
  { destruct (authenticated_or_not ctx) as [Hu | [a Hauth]].
    - by rewrite !(isAccountAuthenticated_unauthenticated i ctx _ Hu).
    - by rewrite !(isAccountAuthenticated_authenticated i ctx a _ Hauth). }
  rewrite <- Ha. destruct (isAccountAuthenticated i ctx w) as [t [e|ctx1]]; [done|].
  assert (Hb : hasOrgSlug_body i ctx1 w = hasOrgSlug_body i ctx1 w').
  { unfold hasOrgSlug_body. destruct (org ctx1) as [o|]; [|done].
    unfold mbind, gate_bind, array_find.
    rewrite (array_find_from_world _ _ 0 w w').
    destruct (array_find_from 0 _ (members o) w') as [t' [e|[m|]]]; try done.
    by destruct (truthy (account_id <$> account ctx1)). }
  by rewrite Hb.
Qed.

(** X1. The procedures form a chain.  The public procedure forwards every
    request.  A request the organization procedure forwards is one the account
    procedure forwards, and a request the enterprise procedure forwards is
    one the organization procedure forwards, with the same context.  An error
    of a weaker procedure is the answer of every stronger one, unchanged.
    None of the three reads the input of the call. *)
Theorem procedure_hierarchy (raw : RawInput) (ctx : BaseContext Id) (w : World) :
  call publicProcedure raw ctx w = ([], inr ctx)
  ∧ (∀ ctx', forwards (call orgProcedure raw ctx w) ctx' →
             forwards (call accountProcedure raw ctx w) ctx)
  ∧ (∀ ctx', forwards (call eeProcedure raw ctx w) ctx' →
             forwards (call orgProcedure raw ctx w) ctx')
  ∧ (∀ e, (call accountProcedure raw ctx w).2 = inl e →
          call orgProcedure raw ctx w = ([], inl e)
          ∧ call eeProcedure raw ctx w = ([], inl e))
  ∧ (∀ t e, call orgProcedure raw ctx w = (t, inl e) →
            call eeProcedure raw ctx w = (t, inl e))
  ∧ (∀ raw', call accountProcedure raw' ctx w = call accountProcedure raw ctx w
             ∧ call orgProcedure raw' ctx w = call orgProcedure raw ctx w
             ∧ call eeProcedure raw' ctx w = call eeProcedure raw ctx w).
Proof.
  rewrite call_accountProcedure, call_orgProcedure, call_eeProcedure_org.
  split_and!.
  - done.
  - intros ctx'. unfold forwards.
    destruct (hasOrgSlug_cases tt ctx w)
      as [[_ ->] | [(a & Ha & _ & ->) | [(a & o & Ha & _ & _ & ->)
                                         | (a & o & l1 & m & l2 & Ha & _)]]];
      try done.
    intros _. by rewrite (isAccountAuthenticated_authenticated tt ctx a w).
  - intros ctx'. unfold forwards, mbind, gate_bind.
    destruct (hasOrgSlug tt ctx w) as [t [e|c]]; [done|].
    rewrite isEeEnabled_run. simpl.
    destruct (truthy _); [|done]. by intros [= <-].
  - intros e He.
    destruct (authenticated_or_not ctx) as [Hu | [a Ha]].
    + rewrite (isAccountAuthenticated_unauthenticated tt ctx w Hu) in He.
      injection He as <-.
      assert (Ho : hasOrgSlug tt ctx w
        = ([], inl (mkTRPCError UNAUTHORIZED "You are not logged in, redirecting..."))).
      { unfold hasOrgSlug, unstable_pipe. apply bind_throw.
        by apply isAccountAuthenticated_unauthenticated. }
      split; [done|]. by apply bind_throw.
    + by rewrite (isAccountAuthenticated_authenticated tt ctx a w Ha) in He.
  - intros t e Ho. by apply bind_throw.
  - intros raw'. by rewrite !call_accountProcedure, !call_orgProcedure, !call_eeProcedure_org.
Qed.

(** X2. Toggling the enterprise flag changes the answer of the enterprise
    procedure at the feature-flag gate only.  The organization procedure
    answers the same whatever the [billing] entry of the configuration is, and
    the enterprise procedure makes the same calls.  It forwards exactly the
    requests the organization procedure forwards while the flag is on, throws
    PRECONDITION_FAILED exactly on those while the flag is off, and forwards
    nothing when the configuration has no [billing] entry. *)
Theorem feature_flag_stage (raw : RawInput) (ctx : BaseContext Id) (w : World)
    (b : option Billing) :
  call orgProcedure raw ctx (with_billing b w) = call orgProcedure raw ctx w
  ∧ (call eeProcedure raw ctx w).1 = (call orgProcedure raw ctx w).1
  ∧ (∀ ctx', forwards (call eeProcedure raw ctx w) ctx'
             ↔ forwards (call orgProcedure raw ctx w) ctx'
               ∧ truthy (enabled <$> billing (useRuntimeConfig w)) = true)
  ∧ (aborts_with PRECONDITION_FAILED (call eeProcedure raw ctx w)
     ↔ (∃ ctx', forwards (call orgProcedure raw ctx w) ctx')
       ∧ truthy (enabled <$> billing (useRuntimeConfig w)) = false)
  ∧ (billing (useRuntimeConfig w) = None →
     ∀ ctx', ¬ forwards (call eeProcedure raw ctx w) ctx').
Proof.
  assert (Hcodes : ∀ t e, hasOrgSlug tt ctx w = (t, inl e) → code e ≠ PRECONDITION_FAILED).
  { intros t e.
    destruct (hasOrgSlug_cases tt ctx w)
      as [[_ ->] | [(a & _ & _ & ->) | [(a & o & _ & _ & _ & ->)
                                        | (a & o & l1 & m & l2 & _ & _ & _ & _ & _ & ->)]]];
      by intros [= _ <-]. }
  assert (Hfwd : ∀ ctx', forwards (call eeProcedure raw ctx w) ctx'
             ↔ forwards (call orgProcedure raw ctx w) ctx'
               ∧ truthy (enabled <$> billing (useRuntimeConfig w)) = true).
  { intros ctx'. rewrite call_orgProcedure, call_eeProcedure_org.
    unfold forwards, mbind, gate_bind.
    destruct (hasOrgSlug tt ctx w) as [t [e|c]]; [by split; [|intros []]|].
    rewrite isEeEnabled_run. simpl.
    destruct (truthy _); split;
      [by intros [= <-] | by intros [? _] | done | by intros [_ ?]]. }
  split_and!.
  - rewrite !call_orgProcedure. apply hasOrgSlug_world.
  - rewrite call_orgProcedure, call_eeProcedure_org. unfold mbind, gate_bind.
    destruct (hasOrgSlug tt ctx w) as [t [e|c]]; [done|].
    rewrite isEeEnabled_run. simpl. by rewrite app_nil_r.
  - done.
  - rewrite call_orgProcedure, call_eeProcedure_org.
    unfold aborts_with, forwards, mbind, gate_bind.
    destruct (hasOrgSlug tt ctx w) as [t [e|c]] eqn:Ho.
    + split.
      * intros (e' & [= <-] & Hc). by destruct (Hcodes t e).
      * by intros [[ctx' ?] _].
    + rewrite isEeEnabled_run. simpl.
      destruct (truthy _); split.
      * by intros (e & ? & _).
      * by intros [_ ?].
      * intros _. split; [by exists c|done].
      * intros _. by eexists.
  - intros Hb ctx' Hf. apply Hfwd in Hf as [_ Ht]. by rewrite Hb in Ht.
Qed.

(** X3. The organization procedure forwards only for a member: when it
    forwards, the request carries an account whose id is present at both
    places, an organization is selected, the forwarded context is the
    received one with [memberId] set to the id of the first member of the
    list whose account id is the account's, and the [find] predicate was
    called on that member and the ones before it, in order, and on no other. *)
Theorem orgProcedure_sound (raw : RawInput) (ctx : BaseContext Id) (w : World)
    (ctx' : OrgMemberContext Id) :
  forwards (call orgProcedure raw ctx w) ctx' →
  ∃ a o l1 m l2,
    authenticated ctx a ∧ org ctx = Some o
    ∧ members o = l1 ++ m :: l2
    ∧ (∀ m', m' ∈ l1 → member_accountId m' ≠ account_id a)
    ∧ member_accountId m = account_id a
    ∧ ctx' = with_member ctx o m
    ∧ (call orgProcedure raw ctx w).1 = MemberTested <$> seq 0 (S (length l1)).
Proof.
  rewrite call_orgProcedure. unfold forwards.
  destruct (hasOrgSlug_cases tt ctx w)
    as [[_ ->] | [(a & _ & _ & ->) | [(a & o & _ & _ & _ & ->)
                                      | (a & o & l1 & m & l2 & Ha & Ho & Hm & Hall & Heq & ->)]]];
    try done.
  simpl. intros [= <-]. by exists a, o, l1, m, l2.
Qed.

(** X4. The codes the procedures that need an account may throw: the
    account procedure only UNAUTHORIZED; the organization procedure only
    UNAUTHORIZED and BAD_REQUEST; the enterprise procedure these and
    PRECONDITION_FAILED.  None of their gates awaits an external call, so
    these are all the ways they fail. *)
Theorem procedure_error_codes (w : World) (raw : RawInput) (ctx : BaseContext Id) :
  throws_only [UNAUTHORIZED] (call accountProcedure raw ctx w)
  ∧ throws_only [UNAUTHORIZED; BAD_REQUEST] (call orgProcedure raw ctx w)
  ∧ throws_only [UNAUTHORIZED; BAD_REQUEST; PRECONDITION_FAILED]
      (call eeProcedure raw ctx w).
Proof.
  assert (Horg : throws_only [UNAUTHORIZED; BAD_REQUEST] (hasOrgSlug tt ctx w)).
  { intros e.
    destruct (hasOrgSlug_cases tt ctx w)
      as [[_ ->] | [(a & _ & _ & ->) | [(a & o & _ & _ & _ & ->)
                                        | (a & o & l1 & m & l2 & _ & _ & _ & _ & _ & ->)]]];
      simpl; intros [= <-]; simpl; set_solver. }
  split_and!.
  - rewrite call_accountProcedure. intros e.
    destruct (authenticated_or_not ctx) as [Hu | [a Ha]].
    + rewrite (isAccountAuthenticated_unauthenticated tt ctx w Hu).
      simpl. intros [= <-]. simpl. set_solver.
    + by rewrite (isAccountAuthenticated_authenticated tt ctx a w Ha).
  - by rewrite call_orgProcedure.
  - rewrite call_eeProcedure_org. intros e. unfold mbind, gate_bind.
    destruct (hasOrgSlug tt ctx w) as [t [e'|c]] eqn:Ho.
    + simpl. intros [= <-]. specialize (Horg e' eq_refl).
      rewrite !elem_of_cons in Horg. rewrite !elem_of_cons. tauto.
    + rewrite isEeEnabled_run. simpl.
      destruct (truthy _); [done|]. intros [= <-]. simpl. set_solver.
Qed.

(** X5. The account, organization and enterprise procedures call neither
    the verifier nor the limiter.  The account procedure makes no call at
    all; the other two only call the [find] predicate, on an initial segment
    of the member list, in order and once per member; and a request that is
    not authenticated causes no call of it.  The answers of the account and
    organization procedures depend on the context alone, not on the
    configuration or an external service. *)
Theorem authenticated_procedures_effects (raw : RawInput) (ctx : BaseContext Id)
    (w : World) :
  (call accountProcedure raw ctx w).1 = []
  ∧ (∃ n, (call orgProcedure raw ctx w).1 = MemberTested <$> seq 0 n
          ∧ (n ≤ length (from_option members [] (org ctx)))%nat
          ∧ (unauthenticated ctx → n = 0))
  ∧ (call eeProcedure raw ctx w).1 = (call orgProcedure raw ctx w).1
  ∧ ∀ w', call accountProcedure raw ctx w' = call accountProcedure raw ctx w
          ∧ call orgProcedure raw ctx w' = call orgProcedure raw ctx w.
Proof.
  split_and!; cycle 3.
  { intros w'. rewrite !call_accountProcedure, !call_orgProcedure.
    split; [|apply hasOrgSlug_world].
    destruct (authenticated_or_not ctx) as [Hu | [a Ha]].
    - by rewrite !(isAccountAuthenticated_unauthenticated tt ctx _ Hu).
    - by rewrite !(isAccountAuthenticated_authenticated tt ctx a _ Ha). }
  - rewrite call_accountProcedure.
    destruct (authenticated_or_not ctx) as [Hu | [a Ha]].
    + by rewrite (isAccountAuthenticated_unauthenticated tt ctx w Hu).
    + by rewrite (isAccountAuthenticated_authenticated tt ctx a w Ha).
  - rewrite call_orgProcedure.
    destruct (hasOrgSlug_cases tt ctx w)
      as [[_ ->] | [(a & Ha & _ & ->) | [(a & o & Ha & Ho & _ & ->)
                                         | (a & o & l1 & m & l2 & Ha & Ho & Hm & _ & _ & ->)]]].
    + exists 0. split_and!; [done|lia|done].
    + exists 0. split_and!; [done|lia|done].
    + exists (length (members o)). rewrite Ho. split_and!; [done|done|].
      intros Hu. by destruct (authenticated_not_unauthenticated ctx a Ha).
    + exists (S (length l1)). rewrite Ho. simpl. rewrite Hm, length_app. simpl.
      split_and!; [done|lia|].
      intros Hu. by destruct (authenticated_not_unauthenticated ctx a Ha).
  - rewrite call_orgProcedure, call_eeProcedure_org. unfold mbind, gate_bind.
    destruct (hasOrgSlug tt ctx w) as [t [e|c]]; [done|].
    rewrite isEeEnabled_run. simpl. by rewrite app_nil_r.
Qed.

(** *** Public rate-limited procedures *)

Lemma publicRateLimitedProcedure_Some (startup : World) (key : string)
    (p : Procedure Id TurnstileInput (BaseContext Id)) :
  publicRateLimitedProcedure startup !! key = Some p →
  ∃ limit duration,
    (key, (limit, duration)) ∈ publicRateLimits
    ∧ p = rateLimited startup key limit duration.
Proof.
  rewrite publicRateLimitedProcedure_lookup.
  destruct (list_to_map publicRateLimits !! key) as [[limit duration]|] eqn:Hl; [|done].
  intros [= <-]. exists limit, duration. split; [|done].
  by apply (elem_of_list_to_map_2 (M:=gmap string)).
Qed.

(** The five ways a call of the procedure of a route ends; [t] is what the
    bot-verification gate has called when the rate limiter gate runs. *)
Lemma call_rateLimited_cases (startup w : World) (key : string) (limit : Z)
    (duration : string) (raw : RawInput) (ctx : BaseContext Id) :
  let secretKey := turnstile_secretKey (useRuntimeConfig w) in
  let unkey := new_unkey (unkey_rootKey (useRuntimeConfig startup)) limit duration
                 ("public." +:+ key) in
  let identifier := or_else (getRequestIP (event ctx)) "unknown" in
  let limited (t : list Effect) :=
    (t ++ [UnkeyLimit unkey identifier],
     if limit_success w unkey identifier
     then inr ctx
     else inl (mkTRPCError TOO_MANY_REQUESTS "Too many requests, please try again later")) in
  let r := call (rateLimited startup key limit duration) raw ctx w in
  (zod_turnstile raw = None
   ∧ r = ([], inl (mkTRPCError BAD_REQUEST "Input validation failed")))
  ∨ ∃ fields s,
      raw = RawObject fields ∧ fields !! "turnstileToken" = Some (RawString s)
      ∧ ((((secretKey = "") ∨ (s = "" ∧ NODE_ENV w = Some "development"))
          ∧ r = limited [])
         ∨ (secretKey ≠ "" ∧ s = "" ∧ NODE_ENV w ≠ Some "development"
            ∧ r = ([], inl (mkTRPCError FORBIDDEN "Missing Turnstile Verification Token")))
         ∨ (secretKey ≠ "" ∧ s ≠ "" ∧ verifyTurnstileToken w s secretKey = false
            ∧ r = ([TurnstileVerify s secretKey],
                   inl (mkTRPCError BAD_REQUEST "Invalid Turnstile Verification Token")))
         ∨ (secretKey ≠ "" ∧ s ≠ "" ∧ verifyTurnstileToken w s secretKey = true
            ∧ r = limited [TurnstileVerify s secretKey])).
Proof.
  cbv zeta. rewrite call_rateLimited.
  destruct (zod_turnstile raw) as [i|] eqn:Hz; [|by left].
  right. apply zod_turnstile_Some in Hz as (fields & s & -> & Hf & ->).
  exists fields, s. split_and!; [done|done|].
  destruct (decide (turnstile_secretKey (useRuntimeConfig w) = "")) as [Hs|Hs].
  { left. split; [by left|].
    rewrite (bind_next _ _ w [] ctx) by by apply turnstile_no_secret.
    by rewrite createRatelimiter_run. }
  destruct (decide (s = "")) as [->|Hne].
  - pose proof (turnstile_no_token (mkTurnstileInput (Some "")) ctx w Hs eq_refl) as Ht.
    case_bool_decide.
    + left. split; [by right|].
      rewrite (bind_next _ _ w [] ctx) by done. by rewrite createRatelimiter_run.
    + right. left. split_and!; try done. by apply bind_throw.
  - pose proof (turnstile_token (mkTurnstileInput (Some s)) ctx w s Hs eq_refl Hne) as Ht.
    destruct (verifyTurnstileToken w s _) eqn:Hv.
    + right. right. right. split_and!; try done.
      rewrite (bind_next _ _ w [TurnstileVerify s (turnstile_secretKey (useRuntimeConfig w))]
                 ctx) by done.
      by rewrite createRatelimiter_run.
    + right. right. left. split_and!; try done. by apply bind_throw.
Qed.

(** X6. A public rate-limited procedure answers FORBIDDEN exactly when a
    secret is configured, the runtime mode is not development and the token
    of the input is the empty string.  It answers TOO_MANY_REQUESTS only when
    a root credential was configured at startup and the remote limiter of
    the route's own namespace refused the caller's identifier. *)
Theorem public_route_refusals (startup w : World) (key : string)
    (p : Procedure Id TurnstileInput (BaseContext Id)) (raw : RawInput)
    (ctx : BaseContext Id) :
  publicRateLimitedProcedure startup !! key = Some p →
  (aborts_with FORBIDDEN (call p raw ctx w)
   ↔ turnstile_secretKey (useRuntimeConfig w) ≠ ""
     ∧ NODE_ENV w ≠ Some "development"
     ∧ ∃ fields, raw = RawObject fields
                 ∧ fields !! "turnstileToken" = Some (RawString ""))
  ∧ (aborts_with TOO_MANY_REQUESTS (call p raw ctx w) →
     unkey_rootKey (useRuntimeConfig startup) ≠ ""
     ∧ ∃ c, rl_namespace c = "public." +:+ key
            ∧ rl_rootKey c = unkey_rootKey (useRuntimeConfig startup)
            ∧ unkey_service w c (or_else (getRequestIP (event ctx)) "unknown") = false).
Proof.
  intros Hp. apply publicRateLimitedProcedure_Some in Hp as (limit & duration & _ & ->).
  pose proof (call_rateLimited_cases startup w key limit duration raw ctx) as Hc.
  cbv zeta in Hc. unfold aborts_with.
  destruct Hc as [[Hz ->] | (fields & s & -> & Hf & Hc)].
  { split.
    - split; [by intros (e & [= <-] & ?)|].
      intros (_ & _ & fields & -> & Hf). simpl in Hz. by rewrite Hf in Hz.
    - by intros (e & [= <-] & ?). }
  assert (Hlim : ∀ t e,
    (t ++ [UnkeyLimit
             (new_unkey (unkey_rootKey (useRuntimeConfig startup)) limit duration
                ("public." +:+ key))
             (or_else (getRequestIP (event ctx)) "unknown")],
     if limit_success w
          (new_unkey (unkey_rootKey (useRuntimeConfig startup)) limit duration
             ("public." +:+ key))
          (or_else (getRequestIP (event ctx)) "unknown")
     then inr ctx
     else inl (mkTRPCError TOO_MANY_REQUESTS
                 "Too many requests, please try again later")).2 = inl e →
    code e = TOO_MANY_REQUESTS
    ∧ unkey_rootKey (useRuntimeConfig startup) ≠ ""
    ∧ ∃ c, rl_namespace c = "public." +:+ key
           ∧ rl_rootKey c = unkey_rootKey (useRuntimeConfig startup)
           ∧ unkey_service w c (or_else (getRequestIP (event ctx)) "unknown") = false).
  { intros t e. simpl. unfold new_unkey.
    destruct (truthy (unkey_rootKey (useRuntimeConfig startup))) eqn:Hr; simpl; [|done].
    destruct (unkey_service w _ _) eqn:Hv; [done|].
    intros [= <-]. split_and!; [done|by apply string_truthy_true|].
    eexists. split_and!; last exact Hv; done. }
  destruct Hc as [[Hby ->] | [(Hs & -> & Hdev & ->) | [(Hs & Hne & Hv & ->)
                                                       | (Hs & Hne & Hv & ->)]]].
  - split.
    + split.
      * intros (e & He & Hcode). apply Hlim in He as [He _]. congruence.
      * intros (Hs & Hdev & fields' & [= <-] & Hf').
        rewrite Hf in Hf'. injection Hf' as ->. by destruct Hby as [?|[_ ?]].
    + intros (e & He & _). by apply Hlim in He as [_ ?].
  - split.
    + split; [|intros _; by eexists].
      intros _. split_and!; [done|done|by exists fields].
    + by intros (e & [= <-] & ?).
  - split.
    + split; [by intros (e & [= <-] & ?)|].
      intros (_ & _ & fields' & [= <-] & Hf'). rewrite Hf in Hf'. by injection Hf' as ->.
    + by intros (e & [= <-] & ?).
  - split.
    + split.
      * intros (e & He & Hcode). apply Hlim in He as [He _]. congruence.
      * intros (_ & _ & fields' & [= <-] & Hf'). rewrite Hf in Hf'. by injection Hf' as ->.
    + intros (e & He & _). by apply Hlim in He as [_ ?].
Qed.

(** X7. A server with neither a verification secret nor a root credential
    lets every well-formed call of a public route through: whatever the
    token, the mode, the verifier and the remote limiter, the call forwards
    the context, and the only call made is the no-op limiter's. *)
Theorem unconfigured_public_routes_pass (startup w : World) (key : string)
    (p : Procedure Id TurnstileInput (BaseContext Id))
    (fields : gmap string RawValue) (s : string) (ctx : BaseContext Id) :
  unkey_rootKey (useRuntimeConfig startup) = "" →
  turnstile_secretKey (useRuntimeConfig w) = "" →
  publicRateLimitedProcedure startup !! key = Some p →
  fields !! "turnstileToken" = Some (RawString s) →
  call p (RawObject fields) ctx w
  = ([UnkeyLimit NoopRatelimit (or_else (getRequestIP (event ctx)) "unknown")],
     inr ctx).
Proof.
  intros Hr Hs Hp Hf.
  apply publicRateLimitedProcedure_Some in Hp as (limit & duration & _ & ->).
  rewrite call_rateLimited. simpl. rewrite Hf.
  rewrite (bind_next _ _ w [] ctx) by by apply turnstile_no_secret.
  rewrite createRatelimiter_run, Hr. done.
Qed.

(** X8. The limiters of two routes are different objects: when a root
    credential is configured, a limiter called by the procedure of one route
    is the remote limiter of the namespace "public." followed by that
    route's name, and it is called by the procedure of no other route. *)
Theorem route_limiters_separate (startup w1 w2 : World) (key1 key2 : string)
    (p1 p2 : Procedure Id TurnstileInput (BaseContext Id)) (raw1 raw2 : RawInput)
    (ctx1 ctx2 : BaseContext Id) (unkey : Ratelimiter) (id1 id2 : string) :
  unkey_rootKey (useRuntimeConfig startup) ≠ "" →
  publicRateLimitedProcedure startup !! key1 = Some p1 →
  publicRateLimitedProcedure startup !! key2 = Some p2 →
  UnkeyLimit unkey id1 ∈ (call p1 raw1 ctx1 w1).1 →
  UnkeyLimit unkey id2 ∈ (call p2 raw2 ctx2 w2).1 →
  key1 = key2
  ∧ ∃ c, unkey = Ratelimit c ∧ rl_namespace c = "public." +:+ key1.
Proof.
  intros Hr Hp1 Hp2 H1 H2.
  assert (Hwhich : ∀ w key (p : Procedure Id TurnstileInput (BaseContext Id)) raw ctx id,
    publicRateLimitedProcedure startup !! key = Some p →
    UnkeyLimit unkey id ∈ (call p raw ctx w).1 →
    ∃ limit duration,
      unkey = Ratelimit (mkRatelimitConfig true limit duration ("public." +:+ key)
                           (unkey_rootKey (useRuntimeConfig startup)))).
  { intros w key p raw ctx id Hp Hin.
    apply publicRateLimitedProcedure_Some in Hp as (limit & duration & _ & ->).
    exists limit, duration.
    pose proof (call_rateLimited_cases startup w key limit duration raw ctx) as Hc.
    cbv zeta in Hc. apply string_truthy_true in Hr.
    unfold new_unkey in Hc. rewrite Hr in Hc.
    destruct Hc as [[_ Hc] | (fields & s & _ & _ & [[_ Hc] | [(_ & _ & _ & Hc)
                               | [(_ & _ & _ & Hc) | (_ & _ & _ & Hc)]]])];
      rewrite Hc in Hin; simpl in Hin.
    - by apply elem_of_nil in Hin.
    - apply list_elem_of_singleton in Hin. by injection Hin as -> _.
    - by apply elem_of_nil in Hin.
    - by apply list_elem_of_singleton in Hin.
    - apply elem_of_cons in Hin as [?|Hin]; [done|].
      apply list_elem_of_singleton in Hin. by injection Hin as -> _. }
  destruct (Hwhich w1 key1 p1 raw1 ctx1 id1 Hp1 H1) as (l1 & d1 & Hu1).
  destruct (Hwhich w2 key2 p2 raw2 ctx2 id2 Hp2 H2) as (l2 & d2 & Hu2).
  split; [|eexists; split; [exact Hu1|done]].
  rewrite Hu1 in Hu2. simpl in Hu2. by simplify_eq.
Qed.

(** X9. A public rate-limited procedure does not look at who calls: for a
    given input and world, two requests whose transport events have the same
    caller IP make the same calls and get the same answer, each its own
    context forwarded or the same error, whatever account and organization
    their contexts carry. *)
Theorem public_routes_ignore_identity (startup w : World) (key : string)
    (p : Procedure Id TurnstileInput (BaseContext Id)) (raw : RawInput)
    (ip : option string) :
  publicRateLimitedProcedure startup !! key = Some p →
  ∃ t o, ∀ ctx : BaseContext Id,
    getRequestIP (event ctx) = ip → call p raw ctx w = (t, outcome ctx o).
Proof.
  intros Hp. apply publicRateLimitedProcedure_Some in Hp as (limit & duration & _ & ->).
  set (unkey := new_unkey (unkey_rootKey (useRuntimeConfig startup)) limit duration
                  ("public." +:+ key)).
  set (lim := if limit_success w unkey (or_else ip "unknown")
              then None
              else Some (mkTRPCError TOO_MANY_REQUESTS
                           "Too many requests, please try again later")).
  assert (Hlim : ∀ (ctx : BaseContext Id) t,
    getRequestIP (event ctx) = ip →
    (t ++ [UnkeyLimit unkey (or_else (getRequestIP (event ctx)) "unknown")],
     if limit_success w unkey (or_else (getRequestIP (event ctx)) "unknown")
     then inr ctx
     else inl (mkTRPCError TOO_MANY_REQUESTS "Too many requests, please try again later"))
    = (t ++ [UnkeyLimit unkey (or_else ip "unknown")], outcome ctx lim)).
  { intros ctx t ->. unfold lim. by destruct (limit_success w unkey _). }
  destruct (zod_turnstile raw) as [i|] eqn:Hz.
  - apply zod_turnstile_Some in Hz as (fields & s & -> & Hf & ->).
    assert (Hcall : ∀ ctx : BaseContext Id,
      call (rateLimited startup key limit duration) (RawObject fields) ctx w
      = (ctx' ← turnstileTokenValidation (mkTurnstileInput (Some s)) ctx;
         createRatelimiter startup limit duration ("public." +:+ key)
           (mkTurnstileInput (Some s)) ctx') w).
    { intros ctx. rewrite call_rateLimited. simpl. by rewrite Hf. }
    destruct (decide (turnstile_secretKey (useRuntimeConfig w) = "")) as [Hs|Hs].
    { exists [UnkeyLimit unkey (or_else ip "unknown")], lim. intros ctx Hip.
      rewrite Hcall, (bind_next _ _ w [] ctx) by by apply turnstile_no_secret.
      rewrite createRatelimiter_run. by apply (Hlim ctx []). }
    destruct (decide (s = "")) as [->|Hne].
    + destruct (decide (NODE_ENV w = Some "development")) as [Hdev|Hdev].
      * exists [UnkeyLimit unkey (or_else ip "unknown")], lim. intros ctx Hip.
        rewrite Hcall, (bind_next _ _ w [] ctx).
        -- rewrite createRatelimiter_run. by apply (Hlim ctx []).
        -- rewrite turnstile_no_token by done. by rewrite bool_decide_eq_true_2.
      * exists [], (Some (mkTRPCError FORBIDDEN "Missing Turnstile Verification Token")).
        intros ctx Hip. rewrite Hcall. apply bind_throw.
        rewrite turnstile_no_token by done. by rewrite bool_decide_eq_false_2.
    + destruct (verifyTurnstileToken w s (turnstile_secretKey (useRuntimeConfig w)))
        eqn:Hv.
      * exists ([TurnstileVerify s (turnstile_secretKey (useRuntimeConfig w))]
                ++ [UnkeyLimit unkey (or_else ip "unknown")]), lim.
        intros ctx Hip.
        rewrite Hcall,
          (bind_next _ _ w [TurnstileVerify s (turnstile_secretKey (useRuntimeConfig w))]
             ctx).
        -- rewrite createRatelimiter_run. by apply (Hlim ctx [TurnstileVerify s _]).
        -- rewrite (turnstile_token _ ctx w s) by done. by rewrite Hv.
      * exists [TurnstileVerify s (turnstile_secretKey (useRuntimeConfig w))],
               (Some (mkTRPCError BAD_REQUEST "Invalid Turnstile Verification Token")).
        intros ctx Hip. rewrite Hcall. apply bind_throw.
        rewrite (turnstile_token _ ctx w s) by done. by rewrite Hv.
  - exists [], (Some (mkTRPCError BAD_REQUEST "Input validation failed")).
    intros ctx _. rewrite call_rateLimited. by rewrite Hz.
Qed.

End ProcedureProperties.

(** ** Further properties of the session handler *)

Section SessionProperties.

Context {Id : Type}.

(** The handler's run, by the cookie and the answer of the storage. *)
Lemma defineEventHandler_run
    (sessionStorage : string → Settled (option (DatabaseSession Id)))
    (event : H3Event) (context : H3EventContext Id) :
  defineEventHandler sessionStorage event context
  = match getCookie event "unsession" with
    | None | Some "" => mkHandlerRun [] (Fulfilled tt) (mkH3EventContext (Some None))
    | Some c =>
        match sessionStorage c with
        | Rejected => mkHandlerRun [c] Rejected context
        | Fulfilled o =>
            mkHandlerRun [c] (Fulfilled tt)
              (mkH3EventContext
                 (Some ((λ so, mkUserContext (su_id (attr_user (ds_attributes so))) so)
                          <$> o)))
        end
    end.
Proof.
  unfold defineEventHandler.
  destruct (getCookie event "unsession") as [[|a c]|]; simpl; try done.
  by destruct (sessionStorage (String a c)) as [[so|]|].
Qed.

(** X10. The handler never invents an identity.  When it completes, the
    [user] field is set, and a non-null identity is the one of the record
    the storage returned for the non-empty value of the session cookie, with
    the id embedded in that record.  It fails only when that lookup fails,
    and then leaves the context as it was.  The storage is consulted at most
    once, with the cookie's value as key; and the run depends on the request
    through the session cookie alone, not on other cookies or the caller
    IP. *)
Theorem resolved_identity_sound
    (sessionStorage : string → Settled (option (DatabaseSession Id)))
    (event : H3Event) (context : H3EventContext Id) :
  let r := defineEventHandler sessionStorage event context in
  (settled r = Fulfilled tt → user (context_after r) ≠ None)
  ∧ (∀ u, settled r = Fulfilled tt → user (context_after r) = Some (Some u) →
       ∃ c, getCookie event "unsession" = Some c ∧ c ≠ ""
            ∧ sessionStorage c = Fulfilled (Some (uc_session u))
            ∧ uc_id u = su_id (attr_user (ds_attributes (uc_session u)))
            ∧ lookups r = [c])
  ∧ (settled r = Rejected →
       context_after r = context
       ∧ ∃ c, getCookie event "unsession" = Some c ∧ c ≠ ""
              ∧ sessionStorage c = Rejected)
  ∧ (length (lookups r) ≤ 1)%nat
  ∧ (∀ k, k ∈ lookups r → getCookie event "unsession" = Some k)
  ∧ (∀ event',
       getCookie event' "unsession" = getCookie event "unsession" →
       defineEventHandler sessionStorage event' context = r).
Proof.
  cbv zeta. rewrite defineEventHandler_run. split_and!.
  - destruct (getCookie event "unsession") as [[|a c]|]; simpl; try done.
    by destruct (sessionStorage (String a c)) as [[so|]|].
  - intros u. destruct (getCookie event "unsession") as [[|a c]|]; simpl; try done.
    destruct (sessionStorage (String a c)) as [[so|]|] eqn:Hs; simpl; try done.
    intros _ [= <-]. by exists (String a c).
  - destruct (getCookie event "unsession") as [[|a c]|]; simpl; try done.
    destruct (sessionStorage (String a c)) as [[so|]|] eqn:Hs; simpl; try done.
    intros _. split; [done|]. by exists (String a c).
  - destruct (getCookie event "unsession") as [[|a c]|]; simpl; try lia.
    destruct (sessionStorage (String a c)) as [[so|]|]; simpl; lia.
  - destruct (getCookie event "unsession") as [[|a c]|]; simpl;
      try (intros k Hk; by apply elem_of_nil in Hk).
    destruct (sessionStorage (String a c)) as [[so|]|]; simpl;
      intros k Hk; by apply list_elem_of_singleton in Hk as ->.
  - intros event' Hc. by rewrite defineEventHandler_run, Hc.
Qed.

End SessionProperties.

(** ** The properties on the sample requests *)

(** Alice, whose ids are present, passes the authentication gate; a request
    without an account does not. *)
Lemma isAccountAuthenticated_gate_witness :
  forwards (isAccountAuthenticated tt (ctx_of (Some alice) None) (production "" ""))
           (ctx_of (Some alice) None)
  ∧ isAccountAuthenticated tt (ctx_of None None) (production "" "")
    = ([], inl (mkTRPCError UNAUTHORIZED "You are not logged in, redirecting...")).
Proof.
  split.
  - apply (isAccountAuthenticated_gate tt (ctx_of (Some alice) None) (production "" "")).
    intros [H | [(a & H & He) | (a & H & He)]]; [done| |].
    + injection H as <-. by vm_compute in He.
    + injection H as <-. by vm_compute in He.
  - apply (isAccountAuthenticated_gate tt (ctx_of None None) (production "" "")).
    by left.
Defined.

(** Alice is the second member of [acme] and no member of [strangers]. *)
Lemma hasOrgSlug_membership_witness :
  forwards (hasOrgSlug tt (ctx_of (Some alice) (Some acme)) (production "" ""))
           (with_member (ctx_of (Some alice) (Some acme)) acme (mkMember "mem_8" "acc_1"))
  ∧ aborts_with UNAUTHORIZED
      (hasOrgSlug tt (ctx_of (Some alice) (Some strangers)) (production "" "")).
Proof.
  split.
  - destruct (hasOrgSlug_membership tt (ctx_of (Some alice) (Some acme)) acme
                (production "" "") eq_refl) as [_ H].
    destruct (H alice) as (_ & Hfirst & _); [by split_and!|].
    apply (Hfirst [mkMember "mem_7" "acc_9"] (mkMember "mem_8" "acc_1")
                  [mkMember "mem_9" "acc_1"]); [done| |done].
    intros m' Hm'. apply list_elem_of_singleton in Hm' as ->. done.
  - destruct (hasOrgSlug_membership tt (ctx_of (Some alice) (Some strangers)) strangers
                (production "" "") eq_refl) as [_ H].
    destruct (H alice) as (Hnone & _); [by split_and!|].
    apply Hnone. intros m Hm.
    apply elem_of_cons in Hm as [->|Hm]; [done|].
    apply list_elem_of_singleton in Hm as ->. done.
Defined.

(** Alice without a selected organization. *)
Lemma hasOrgSlug_no_org_witness :
  hasOrgSlug tt (ctx_of (Some alice) None) (production "" "")
  = ([], inl (mkTRPCError BAD_REQUEST "Invalid organization selected, redirecting...")).
Proof.
  destruct (hasOrgSlug_no_org tt (ctx_of (Some alice) None) (production "" "") eq_refl)
    as [_ H].
  apply (H alice). by split_and!.
Defined.

(** An empty token on a production server that has a secret. *)
Lemma empty_token_forbidden_witness :
  turnstileTokenValidation (mkTurnstileInput (Some "")) (ctx_of None None)
    (production "turnstile-secret" "")
  = ([], inl (mkTRPCError FORBIDDEN "Missing Turnstile Verification Token")).
Proof.
  apply (empty_token_forbidden (ctx_of None None) (production "turnstile-secret" "")
           {[ "turnstileToken" := RawString "" ]}); [done|done|].
  apply lookup_singleton_eq.
Defined.

(** A non-empty token on a production server that has a secret: the verifier
    is called with (token, secret) and, as it refuses, the gate throws. *)
Lemma turnstileTokenValidation_gate_witness :
  (turnstileTokenValidation (mkTurnstileInput (Some "tok")) (ctx_of None None)
     (production "turnstile-secret" "")).1
  = [TurnstileVerify "tok" "turnstile-secret"]
  ∧ aborts_with BAD_REQUEST
      (turnstileTokenValidation (mkTurnstileInput (Some "tok")) (ctx_of None None)
         (production "turnstile-secret" "")).
Proof.
  destruct (turnstileTokenValidation_gate (mkTurnstileInput (Some "tok"))
              (ctx_of None None) (production "turnstile-secret" "")) as (_ & _ & H).
  exact (H ltac:(done) "tok" eq_refl ltac:(done)).
Defined.

(** A gate built while no root credential was configured forwards, though
    the service would refuse. *)
Lemma createRatelimiter_gate_witness :
  forwards (createRatelimiter (production "" "") 100 "1m" "public.validateInvite"
              tt (ctx_of None None) (production "" "unkey-root"))
           (ctx_of None None).
Proof.
  destruct (createRatelimiter_gate (production "" "") (production "" "unkey-root")
              100 "1m" "public.validateInvite" tt (ctx_of None None)) as [_ H].
  exact (proj2 (proj2 (H eq_refl))).
Defined.

(** A cookie for whose value the storage returns a record. *)
Lemma session_resolver_witness :
  resolved_identity a_session_storage (mkH3Event {[ "unsession" := "abc" ]} None)
  = Some (Some (mkUserContext "acc_1" stored_session)).
Proof.
  destruct (session_resolver a_session_storage
              (mkH3Event {[ "unsession" := "abc" ]} None)
              (mkH3EventContext None)) as (_ & _ & _ & H).
  destruct (H "abc" stored_session) as [Hr _];
    [apply lookup_singleton_eq | by vm_compute | done |].
  unfold resolved_identity. by rewrite Hr.
Defined.

(** C4, as worded, fails on an empty token: the token is supplied, the
    verifier is not called. *)
Lemma bot_verification_counterexample :
  ¬ bot_verification_as_worded (production "turnstile-secret" "")
      (mkTurnstileInput (Some "")) (ctx_of None None).
Proof.
  intros (_ & _ & H).
  destruct (H ltac:(done) "" eq_refl) as [Htrace _].
  by vm_compute in Htrace.
Qed.

(** C6, as worded, fails for the root credential: a gate built while no
    credential was configured keeps forwarding after one has been set, where
    a gate built afterwards refuses. *)
Lemma rootKey_counterexample :
  ¬ rootKey_read_per_call (production "" "") (production "" "unkey-root")
      100 "1m" "public.validateInvite" (ctx_of None None).
Proof. unfold rootKey_read_per_call. by vm_compute. Qed.

(** The route table holds the route [validateInvite]. *)
Lemma validateInvite_route (startup : World) :
  publicRateLimitedProcedure (Id:=string) startup !! "validateInvite"
  = Some (rateLimited startup "validateInvite" 100 "1m").
Proof.
  rewrite publicRateLimitedProcedure_lookup.
  by rewrite (elem_of_list_to_map_1 (M:=gmap string) publicRateLimits
                "validateInvite" (100%Z, "1m") publicRateLimits_NoDup ltac:(set_solver)).
Qed.

(** Alice, forwarded by the organization procedure for [acme]. *)
Lemma orgProcedure_sound_witness :
  ∃ a o l1 m l2,
    authenticated (ctx_of (Some alice) (Some acme)) a
    ∧ org (ctx_of (Some alice) (Some acme)) = Some o
    ∧ members o = l1 ++ m :: l2
    ∧ (∀ m', m' ∈ l1 → member_accountId m' ≠ account_id a)
    ∧ member_accountId m = account_id a
    ∧ with_member (ctx_of (Some alice) (Some acme)) acme (mkMember "mem_8" "acc_1")
      = with_member (ctx_of (Some alice) (Some acme)) o m
    ∧ (call orgProcedure RawNotObject (ctx_of (Some alice) (Some acme))
         (production "" "")).1
      = MemberTested <$> seq 0 (S (length l1)).
Proof.
  apply (orgProcedure_sound RawNotObject (ctx_of (Some alice) (Some acme))
           (production "" "")
           (with_member (ctx_of (Some alice) (Some acme)) acme (mkMember "mem_8" "acc_1"))).
  reflexivity.
Defined.

(** An empty token on a production server with a secret, on a public route. *)
Lemma public_route_refusals_witness :
  aborts_with FORBIDDEN
    (call (rateLimited (production "" "") "validateInvite" 100 "1m")
       (RawObject {[ "turnstileToken" := RawString "" ]}) (ctx_of None None)
       (production "turnstile-secret" "")).
Proof.
  apply (public_route_refusals (production "" "") (production "turnstile-secret" "")
           "validateInvite" _ _ (ctx_of None None)
           (validateInvite_route (production "" ""))).
  split_and!; [done|done|].
  eexists. split; [done|]. apply lookup_singleton_eq.
Defined.

(** A server without secret and root credential, and a limiter service that
    would refuse. *)
Lemma unconfigured_public_routes_pass_witness :
  call (rateLimited (production "" "") "validateInvite" 100 "1m")
    (RawObject {[ "turnstileToken" := RawString "tok" ]}) (ctx_of None None)
    (production "" "")
  = ([UnkeyLimit NoopRatelimit "203.0.113.7"], inr (ctx_of None None)).
Proof.
  apply (unconfigured_public_routes_pass (production "" "") (production "" "")
           "validateInvite" _ {[ "turnstileToken" := RawString "tok" ]} "tok"
           (ctx_of None None) eq_refl eq_refl
           (validateInvite_route (production "" ""))).
  apply lookup_singleton_eq.
Defined.

(** Two calls of one route on a server with a root credential. *)
Lemma route_limiters_separate_witness :
  "validateInvite" = "validateInvite"
  ∧ ∃ c, Ratelimit (mkRatelimitConfig true 100 "1m" "public.validateInvite" "unkey-root")
         = Ratelimit c
         ∧ rl_namespace c = "public." +:+ "validateInvite".
Proof.
  apply (route_limiters_separate (production "" "unkey-root")
           (production "" "unkey-root") (production "" "unkey-root")
           "validateInvite" "validateInvite" _ _
           (RawObject {[ "turnstileToken" := RawString "tok" ]})
           (RawObject {[ "turnstileToken" := RawString "" ]})
           (ctx_of None None) (ctx_of (Some alice) None)
           (Ratelimit (mkRatelimitConfig true 100 "1m" "public.validateInvite" "unkey-root"))
           "203.0.113.7" "203.0.113.7"
           ltac:(done)
           (validateInvite_route (production "" "unkey-root"))
           (validateInvite_route (production "" "unkey-root"))).
  - vm_compute. apply list_elem_of_here.
  - vm_compute. apply list_elem_of_here.
Defined.

(** Requests from one address on a public route. *)
Lemma public_routes_ignore_identity_witness :
  ∃ t o, ∀ ctx : BaseContext string,
    getRequestIP (event ctx) = Some "203.0.113.7" →
    call (rateLimited (production "" "unkey-root") "validateInvite" 100 "1m")
      (RawObject {[ "turnstileToken" := RawString "tok" ]}) ctx
      (production "turnstile-secret" "")
    = (t, outcome ctx o).
Proof.
  exact (public_routes_ignore_identity (production "" "unkey-root")
           (production "turnstile-secret" "") "validateInvite" _
           (RawObject {[ "turnstileToken" := RawString "tok" ]}) (Some "203.0.113.7")
           (validateInvite_route (production "" "unkey-root"))).
Defined.
